(** * ai-selfcare-planner: streak, engagement and social-graph bookkeeping

    A shallow embedding of the Mongoose models (models/User.js,
    models/Activity.js, models/Group.js), of the Express handlers that
    drive them (routes/activities.js, routes/social.js) behind the [auth]
    middleware (middleware/auth.js), and of the application settings that
    server.js leaves them, followed by the properties of the streak
    counters, the like list, the friend-request state machine, group
    membership, challenge progress and the trending listing.

    Conventions of the embedding:
    - an ObjectId is its 96-bit value ([N]); [a.toString() === b.toString()]
      on two ObjectIds is equality of the values;
    - a JavaScript [Date] is its time value, the milliseconds since the
      epoch ([Z]); [new Date()] is an explicit argument [now] of every
      function that reads the clock;
    - a collection is a finite map from [_id] to document; [doc.save()]
      writes the document back under its [_id];
    - the record of a document holds the paths the handlers read or
      write; what Mongoose maintains by itself on a save, the
      [updatedAt] of [timestamps: true] and the version key [__v], is
      not among them, and a statement about a stored document is a
      statement about the paths of its record;
    - an embedded array is a list; [push] appends at the end, [find]
      returns the first match, and a write through the reference that
      [find] returned is an update at that index. *)

From Stdlib Require Import ZArith String.
From stdpp Require Import base decidable option list gmap strings sorting.

Local Open Scope Z_scope.

(** ** Base types *)

Abbreviation ObjectId := N.
Abbreviation Date := Z.

(** ** models/User.js *)

Inductive FriendStatus := pending | accepted | blocked.

Global Instance FriendStatus_eq_dec : EqDecision FriendStatus.
Proof. solve_decision. Defined.

(** An element of [socialData.friends]. *)
Record Friend := mkFriend {
  friend_userId : ObjectId;
  friend_status : FriendStatus;
  addedAt : Date
}.

Inductive UserGroupRole := ug_member | ug_admin.

(** An element of [socialData.groups]. *)
Record GroupRef := mkGroupRef {
  groupId : ObjectId;
  groupref_role : UserGroupRole;
  groupref_joinedAt : Date
}.

Record StreakData := mkStreakData {
  currentStreak : Z;
  longestStreak : Z;
  lastActivityDate : option Date;
  totalActivitiesCompleted : Z
}.

Record Profile := mkProfile {
  firstName : option string;
  avatar : string
}.

Record User := mkUser {
  username : string;
  profile : Profile;
  streakData : StreakData;
  friends : list Friend;          (* socialData.friends *)
  groups : list GroupRef;         (* socialData.groups *)
  user_isActive : bool
}.

Definition set_streakData (sd : StreakData) (u : User) : User :=
  mkUser (username u) (profile u) sd (friends u) (groups u) (user_isActive u).

Definition set_friends (fs : list Friend) (u : User) : User :=
  mkUser (username u) (profile u) (streakData u) fs (groups u) (user_isActive u).

Definition set_groups (gs : list GroupRef) (u : User) : User :=
  mkUser (username u) (profile u) (streakData u) (friends u) gs (user_isActive u).

(** [1000 * 60 * 60 * 24] *)
Definition MS_PER_DAY : Z := 1000 * 60 * 60 * 24.

(** [Math.floor((today - lastActivity) / (1000 * 60 * 60 * 24))]: the
    difference of two time values is an integer, and [Z.div] rounds
    towards minus infinity as [Math.floor] does. *)
Definition daysDiff (today lastActivity : Date) : Z :=
  (today - lastActivity) `div` MS_PER_DAY.

(** [userSchema.methods.updateStreak], with [today = new Date()]. *)
Definition updateStreak (today : Date) (this : User) : User :=
  let sd := streakData this in
  let sd1 :=
    match lastActivityDate sd with
    | None =>
        mkStreakData 1 (longestStreak sd) (Some today)
                     (totalActivitiesCompleted sd)
    | Some lastActivity =>
        if daysDiff today lastActivity =? 1 then
          mkStreakData (currentStreak sd + 1) (longestStreak sd) (Some today)
                       (totalActivitiesCompleted sd)
        else if daysDiff today lastActivity >? 1 then
          mkStreakData 1 (longestStreak sd) (Some today)
                       (totalActivitiesCompleted sd)
        else sd
    end in
  let sd2 :=
    if currentStreak sd1 >? longestStreak sd1
    then mkStreakData (currentStreak sd1) (currentStreak sd1)
                      (lastActivityDate sd1) (totalActivitiesCompleted sd1)
    else sd1 in
  set_streakData
    (mkStreakData (currentStreak sd2) (longestStreak sd2)
                  (lastActivityDate sd2) (totalActivitiesCompleted sd2 + 1))
    this.

(** A run of completion events, each at its own clock reading. *)
Definition completions (clock : list Date) (u : User) : User :=
  foldl (fun acc today => updateStreak today acc) u clock.

(** Calendar day of a time value for a zone [tz] milliseconds east of
    UTC, and the calendar-day difference the specification speaks of. *)
Definition calendarDay (tz : Z) (d : Date) : Z := (d + tz) `div` MS_PER_DAY.

Definition calendarDayDiff (tz : Z) (today lastActivity : Date) : Z :=
  calendarDay tz today - calendarDay tz lastActivity.

(** ** models/Activity.js *)

(** [completionData.mood] *)
Record MoodPair := mkMoodPair {
  before : option string;
  after : option string
}.

Record CompletionData := mkCompletionData {
  isCompleted : bool;
  completedAt : option Date;
  rating : option Z;
  feedback : option string;
  mood : MoodPair;
  notes : option string
}.

(** An element of [socialData.likes]. *)
Record Like := mkLike {
  like_userId : ObjectId;
  likedAt : Date
}.

(** An element of [socialData.comments]. *)
Record Comment := mkComment {
  comment_userId : ObjectId;
  comment_content : string;
  comment_createdAt : Date
}.

Record Activity := mkActivity {
  activity_userId : ObjectId;
  activity_type : string;
  category : string;
  title : string;
  content : string;
  description : option string;
  duration : Z;
  difficulty : string;
  tags : list string;
  completionData : CompletionData;
  isShared : bool;                (* socialData.isShared *)
  likes : list Like;              (* socialData.likes *)
  comments : list Comment;        (* socialData.comments *)
  activity_isActive : bool;
  createdAt : Date
}.

Definition set_completionData (cd : CompletionData) (a : Activity) : Activity :=
  mkActivity (activity_userId a) (activity_type a) (category a) (title a)
    (content a) (description a) (duration a) (difficulty a) (tags a)
    cd (isShared a) (likes a) (comments a) (activity_isActive a) (createdAt a).

Definition set_likes (ls : list Like) (a : Activity) : Activity :=
  mkActivity (activity_userId a) (activity_type a) (category a) (title a)
    (content a) (description a) (duration a) (difficulty a) (tags a)
    (completionData a) (isShared a) ls (comments a) (activity_isActive a)
    (createdAt a).

(** The virtuals [likeCount] and [commentCount]. *)
Definition likeCount (a : Activity) : nat := length (likes a).
Definition commentCount (a : Activity) : nat := length (comments a).

(** [activitySchema.methods.markCompleted], with [now = new Date()]. *)
Definition markCompleted (now : Date) (rating : option Z)
    (feedback moodBefore moodAfter notes : option string)
    (this : Activity) : Activity :=
  set_completionData
    (mkCompletionData true (Some now) rating feedback
                      (mkMoodPair moodBefore moodAfter) notes)
    this.

(** The enum of [completionData.mood.before] and [.after]. *)
Definition MOODS : list string :=
  ["stressed"; "anxious"; "sad"; "neutral"; "happy"; "excited"; "calm";
   "energetic"]%string.

Definition opt_ok {A} (P : A -> bool) (o : option A) : bool :=
  match o with Some x => P x | None => true end.

(** Schema validation of the paths [markCompleted] writes, as run by
    [save()]: [rating] within 1..5, the moods in their enum, [feedback]
    at most 500 and [notes] at most 1000 characters. *)
Definition validCompletionData (cd : CompletionData) : bool :=
  opt_ok (fun r => (1 <=? r) && (r <=? 5)) (rating cd)
  && opt_ok (fun s => bool_decide (s ∈ MOODS)) (before (mood cd))
  && opt_ok (fun s => bool_decide (s ∈ MOODS)) (after (mood cd))
  && opt_ok (fun s => (String.length s <=? 500)%nat) (feedback cd)
  && opt_ok (fun s => (String.length s <=? 1000)%nat) (notes cd).

(** [like => like.userId.toString() === userId.toString()] *)
Definition likedBy (userId : ObjectId) (like : Like) : Prop :=
  like_userId like = userId.

Global Instance likedBy_dec userId like : Decision (likedBy userId like).
Proof. unfold likedBy. apply _. Defined.

(** [activitySchema.methods.addLike]; the pushed [{ userId }] takes the
    schema default [likedAt = Date.now]. *)
Definition addLike (now : Date) (userId : ObjectId) (this : Activity) : Activity :=
  match list_find (likedBy userId) (likes this) with
  | Some _ => this
  | None => set_likes (likes this ++ [mkLike userId now]) this
  end.

(** [activitySchema.methods.removeLike] *)
Definition removeLike (userId : ObjectId) (this : Activity) : Activity :=
  set_likes (filter (fun like => ¬ likedBy userId like) (likes this)) this.

(** *** The trending pipeline of [getTrendingActivities] *)

(** A document after the [$addFields] stage. *)
Record Scored := mkScored {
  scored_id : ObjectId;
  scored_doc : Activity;
  scored_likeCount : nat;
  scored_commentCount : nat;
  scored_engagementScore : nat
}.

(** [$match: { 'socialData.isShared': true, isActive: true }] *)
Definition trendingMatch (d : ObjectId * Activity) : Prop :=
  isShared d.2 = true ∧ activity_isActive d.2 = true.

Global Instance trendingMatch_dec d : Decision (trendingMatch d).
Proof. unfold trendingMatch. apply _. Defined.

(** [$addFields]: [likeCount = $size likes], [commentCount = $size
    comments], [engagementScore = $add [$size likes, $multiply [$size
    comments, 2]]]. *)
Definition addFields (d : ObjectId * Activity) : Scored :=
  mkScored d.1 d.2 (length (likes d.2)) (length (comments d.2))
           (length (likes d.2) + length (comments d.2) * 2)%nat.

(** [$sort: { engagementScore: -1, createdAt: -1 }]: [x] may stand
    before [y]. *)
Definition sortsBefore (x y : Scored) : Prop :=
  (scored_engagementScore y < scored_engagementScore x)%nat
  ∨ (scored_engagementScore x = scored_engagementScore y
     ∧ createdAt (scored_doc y) <= createdAt (scored_doc x)).

Global Instance sortsBefore_dec : RelDecision sortsBefore.
Proof. intros x y. unfold sortsBefore. apply _. Defined.

(** The sub-document that [$lookup] and [$project] leave of a user. *)
Record TrendingUser := mkTrendingUser {
  tu_username : string;
  tu_firstName : option string;
  tu_avatar : string
}.

(** A document of the listing, after [$project]. *)
Record Trending := mkTrending {
  t_id : ObjectId;
  t_type : string;
  t_category : string;
  t_title : string;
  t_content : string;
  t_description : option string;
  t_duration : Z;
  t_difficulty : string;
  t_tags : list string;
  t_likeCount : nat;
  t_commentCount : nat;
  engagementScore : nat;
  t_createdAt : Date;
  t_user : list TrendingUser
}.

(** [$lookup] into [users] on [userId = _id], then [$project]. *)
Definition lookupProject (users : gmap ObjectId User) (s : Scored) : Trending :=
  let a := scored_doc s in
  mkTrending (scored_id s) (activity_type a) (category a) (title a)
    (content a) (description a) (duration a) (difficulty a) (tags a)
    (scored_likeCount s) (scored_commentCount s) (scored_engagementScore s)
    (createdAt a)
    match users !! activity_userId a with
    | Some u => [mkTrendingUser (username u) (firstName (profile u))
                                (avatar (profile u))]
    | None => []
    end.

(** The stages up to [$sort], before [$limit] cuts the listing. *)
Definition trendingRanked (activities : gmap ObjectId Activity) : list Scored :=
  merge_sort sortsBefore
    (addFields <$> filter trendingMatch (map_to_list activities)).

(** [activitySchema.statics.getTrendingActivities]; [$limit] takes a
    positive integer (the default of the parameter is 10). *)
Definition getTrendingActivities (limit : positive)
    (users : gmap ObjectId User) (activities : gmap ObjectId Activity)
    : list Trending :=
  lookupProject users <$> take (Pos.to_nat limit) (trendingRanked activities).

(** The order of the listing as its reader sees it: higher
    [engagementScore] first, and the more recent [createdAt] first among
    equal scores. *)
Definition rankedBefore (x y : Trending) : Prop :=
  (engagementScore y < engagementScore x)%nat
  ∨ (engagementScore x = engagementScore y ∧ t_createdAt y <= t_createdAt x).

(** ** models/Group.js *)

Inductive Privacy := public | private | invite_only.

Global Instance Privacy_eq_dec : EqDecision Privacy.
Proof. solve_decision. Defined.

Inductive Role := admin | moderator | member.

Record Member := mkMember {
  member_userId : ObjectId;
  member_role : Role;
  member_joinedAt : Date;
  member_isActive : bool
}.

(** An element of [challenges[].participants]. *)
Record Participant := mkParticipant {
  participant_userId : ObjectId;
  progress : Z;
  lastUpdate : Date;
  participant_isCompleted : bool
}.

(** [goal.target] as a document holds it.  The path is a [Number] that
    is not required: it holds a number, or [null] when it was set to
    [null] (Mongoose stores a [null] it is given), or nothing at all,
    and then reads as [undefined]. *)
Inductive Target :=
  | number (t : Z)
  | null
  | undefined.

Record Challenge := mkChallenge {
  challenge_id : ObjectId;        (* _id of the sub-document *)
  challenge_title : string;
  target : Target;                (* goal.target *)
  participants : list Participant;
  challenge_isActive : bool
}.

Record Group := mkGroup {
  name : string;
  privacy : Privacy;
  members : list Member;
  challenges : list Challenge;
  maxMembers : Z;                 (* settings.maxMembers *)
  group_isActive : bool
}.

Definition set_members (ms : list Member) (g : Group) : Group :=
  mkGroup (name g) (privacy g) ms (challenges g) (maxMembers g)
          (group_isActive g).

Definition set_challenges (cs : list Challenge) (g : Group) : Group :=
  mkGroup (name g) (privacy g) (members g) cs (maxMembers g)
          (group_isActive g).

Definition set_participants (ps : list Participant) (c : Challenge) : Challenge :=
  mkChallenge (challenge_id c) (challenge_title c) (target c) ps
              (challenge_isActive c).

(** The virtual [memberCount]:
    [this.members.filter(member => member.isActive).length]. *)
Definition memberCount (g : Group) : nat :=
  length (filter (fun m => member_isActive m = true) (members g)).

(** [groupSchema.methods.addMember]; the route passes no [role], so the
    default ['member'] applies there. *)
Definition addMember (now : Date) (userId : ObjectId) (role : Role)
    (this : Group) : Group :=
  match list_find (fun m => member_userId m = userId) (members this) with
  | None => set_members (members this ++ [mkMember userId role now true]) this
  | Some (i, existingMember) =>
      if member_isActive existingMember then this
      else set_members
             (<[i := mkMember (member_userId existingMember)
                              (member_role existingMember) now true]>
                (members this))
             this
  end.

(** [progress >= challenge.goal.target], where [progress] is a number.
    The comparison converts its right side to a number: [null] becomes
    0, and [undefined] becomes NaN, with which every comparison is
    false. *)
Definition reachesTarget (progress : Z) (target : Target) : bool :=
  match target with
  | number t => t <=? progress
  | null => 0 <=? progress
  | undefined => false
  end.

(** [groupSchema.methods.updateChallengeProgress];
    [this.challenges.id(challengeId)] is the first sub-document with
    that [_id]. *)
Definition updateChallengeProgress (now : Date) (challengeId userId : ObjectId)
    (newProgress : Z) (this : Group) : Group :=
  match list_find (fun c => challenge_id c = challengeId) (challenges this) with
  | Some (ci, challenge) =>
      match list_find (fun p => participant_userId p = userId)
                      (participants challenge) with
      | Some (pi, participant) =>
          let participant' :=
            mkParticipant (participant_userId participant) newProgress now
              (if reachesTarget newProgress (target challenge) then true
               else participant_isCompleted participant) in
          set_challenges
            (<[ci := set_participants
                       (<[pi := participant']> (participants challenge))
                       challenge]> (challenges this))
            this
      | None => this
      end
  | None => this
  end.

(** ** The server: collections, responses and the handler monad *)

(** The payload of the [challenge-progress] socket event. *)
Record Event := mkEvent {
  event_room : ObjectId;          (* the room [group-${groupId}] *)
  event_challengeId : ObjectId;
  event_userId : ObjectId;
  event_progress : Z
}.

Record State := mkState {
  db_users : gmap ObjectId User;
  db_activities : gmap ObjectId Activity;
  db_groups : gmap ObjectId Group;
  emitted : list Event
}.

Inductive Payload :=
| NoPayload
| CompletePayload (activity : Activity) (streak : StreakData)
| LikePayload (count : nat) (isLiked : bool).

Record Response := mkResponse {
  status : nat;
  message : string;
  payload : Payload
}.

(** [res.status(code).json({ message })] *)
Definition reply (code : nat) (msg : string) : Response :=
  mkResponse code msg NoPayload.

(** What a statement of a handler does: it yields a value, it returns a
    response early ([return res.status(..).json(..)]), or it throws. *)
Inductive Outcome (A : Type) :=
| Value (a : A)
| Sent (r : Response)
| Thrown.
Arguments Value {A} a.
Arguments Sent {A} r.
Arguments Thrown {A}.

Definition Step (A : Type) : Type := State -> State * Outcome A.

Definition ret {A} (a : A) : Step A := fun s => (s, Value a).

Definition bind {A B} (m : Step A) (k : A -> Step B) : Step B :=
  fun s =>
    match m s with
    | (s', Value a) => k a s'
    | (s', Sent r) => (s', Sent r)
    | (s', Thrown) => (s', Thrown)
    end.

(** The monad notations [x ← m; k] and [m ;; k]. *)
Global Instance Step_ret : MRet Step := @ret.
Global Instance Step_bind : MBind Step := fun A B k m => bind m k.

Definition send {A} (r : Response) : Step A := fun s => (s, Sent r).

Definition throw {A} : Step A := fun s => (s, Thrown).

(** [if (cond) return res.status(..).json(..)] *)
Definition sendIf (cond : bool) (r : Response) : Step unit :=
  if cond then send r else ret tt.

(** A property read off a value that may be [null] or [undefined]: a
    [TypeError] when it is. *)
Definition deref {A} (o : option A) : Step A :=
  match o with
  | Some a => ret a
  | None => throw
  end.

Definition User_findById (id : ObjectId) : Step (option User) :=
  fun s => (s, Value (db_users s !! id)).

(** [User.findOne({ username })]: a document of the collection with that
    user name, together with its [_id]. *)
Definition User_findOne_username (uname : string)
    : Step (option (ObjectId * User)) :=
  fun s => (s, Value (snd <$> list_find (fun d => username d.2 = uname)
                                        (map_to_list (db_users s)))).

Definition User_save (id : ObjectId) (u : User) : Step unit :=
  fun s => (mkState (<[id := u]> (db_users s)) (db_activities s)
                    (db_groups s) (emitted s), Value tt).

(** [Activity.findOne({ _id: id, ...filter })] *)
Definition Activity_findOne (id : ObjectId) (filter : Activity -> bool)
    : Step (option Activity) :=
  fun s => (s, Value (match db_activities s !! id with
                      | Some a => if filter a then Some a else None
                      | None => None
                      end)).

Definition Activity_save (id : ObjectId) (a : Activity) : Step unit :=
  fun s => (mkState (db_users s) (<[id := a]> (db_activities s))
                    (db_groups s) (emitted s), Value tt).

Definition Group_findById (id : ObjectId) : Step (option Group) :=
  fun s => (s, Value (db_groups s !! id)).

Definition Group_save (id : ObjectId) (g : Group) : Step unit :=
  fun s => (mkState (db_users s) (db_activities s)
                    (<[id := g]> (db_groups s)) (emitted s), Value tt).

(** [io.to(room).emit('challenge-progress', data)] *)
Definition emit (e : Event) : Step unit :=
  fun s => (mkState (db_users s) (db_activities s) (db_groups s)
                    (emitted s ++ [e]), Value tt).

(** [try { body } catch (error) { res.status(500).json({ message }) }] *)
Definition tryCatch (onError : string) (body : Step Response) (s : State)
    : Response * State :=
  match body s with
  | (s', Value r) => (r, s')
  | (s', Sent r) => (r, s')
  | (s', Thrown) => (reply 500 onError, s')
  end.

(** *** middleware/auth.js *)

(** The [Authorization] header as [jwt.verify] sees it. *)
Inductive Token :=
| NoToken
| InvalidToken
| ExpiredToken
| Verified (userId : ObjectId).

(** [auth]: [req.user] is the user document of the token, read when the
    request arrives, with its [_id]. *)
Definition auth (token : Token) (next : ObjectId * User -> State -> Response * State)
    (s : State) : Response * State :=
  match token with
  | NoToken => (reply 401 "No token provided, authorization denied", s)
  | InvalidToken => (reply 401 "Invalid token", s)
  | ExpiredToken => (reply 401 "Token expired", s)
  | Verified userId =>
      match db_users s !! userId with
      | None => (reply 401 "Token is not valid, user not found", s)
      | Some user =>
          if user_isActive user then next (userId, user) s
          else (reply 401 "Account is deactivated", s)
      end
  end.

(** [if (!valid) throw new ValidationError(..)], as [save()] does for the
    paths a handler modified. *)
Definition validate (valid : bool) : Step unit :=
  if valid then ret tt else throw.

(** ** routes/activities.js *)

(** [req.body] of the complete request. *)
Record CompleteBody := mkCompleteBody {
  body_rating : option Z;
  body_feedback : option string;
  body_moodBefore : option string;
  body_moodAfter : option string;
  body_notes : option string
}.

(** [POST /api/activities/:id/complete]; [now] is the clock reading of
    [markCompleted] and [today] the one of [updateStreak]. *)
Definition post_activities_complete (now today : Date) (token : Token)
    (id : ObjectId) (body : CompleteBody) : State -> Response * State :=
  auth token (fun req_user =>
    tryCatch "Error completing activity" (
      activity ← Activity_findOne id
        (fun a => (activity_userId a =? req_user.1)%N && activity_isActive a);
      match activity with
      | None => send (reply 404 "Activity not found")
      | Some activity =>
          sendIf (isCompleted (completionData activity))
                 (reply 400 "Activity already completed") ;;
          let activity :=
            markCompleted now (body_rating body) (body_feedback body)
              (body_moodBefore body) (body_moodAfter body) (body_notes body)
              activity in
          validate (validCompletionData (completionData activity)) ;;
          Activity_save id activity ;;
          user ← User_findById req_user.1;
          user ← deref user;
          let user := updateStreak today user in
          User_save req_user.1 user ;;
          ret (mkResponse 200 "Activity completed successfully"
                          (CompletePayload activity (streakData user)))
      end)).

(** [POST /api/activities/:id/like] *)
Definition post_activities_like (now : Date) (token : Token) (id : ObjectId)
    : State -> Response * State :=
  auth token (fun req_user =>
    tryCatch "Error liking activity" (
      activity ← Activity_findOne id activity_isActive;
      match activity with
      | None => send (reply 404 "Activity not found")
      | Some activity =>
          let existingLike := list_find (likedBy req_user.1) (likes activity) in
          let activity :=
            match existingLike with
            | Some _ => removeLike req_user.1 activity
            | None => addLike now req_user.1 activity
            end in
          Activity_save id activity ;;
          ret (mkResponse 200
                 match existingLike with
                 | Some _ => "Activity unliked"
                 | None => "Activity liked"
                 end
                 (LikePayload (length (likes activity))
                              match existingLike with
                              | Some _ => false
                              | None => true
                              end))
      end)).

(** ** routes/social.js *)

Definition set_status (st : FriendStatus) (f : Friend) : Friend :=
  mkFriend (friend_userId f) st (addedAt f).

(** [friend => friend.userId.toString() === id.toString()] *)
Definition friendOf (id : ObjectId) (friend : Friend) : Prop :=
  friend_userId friend = id.

Global Instance friendOf_dec id friend : Decision (friendOf id friend).
Proof. unfold friendOf. apply _. Defined.

(** [POST /api/social/friends/request]; [now1] and [now2] are the two
    readings of the clock for [addedAt]. *)
Definition post_friends_request (now1 now2 : Date) (token : Token)
    (body_username : option string) : State -> Response * State :=
  auth token (fun req_user =>
    tryCatch "Error sending friend request" (
      match body_username with
      | None | Some EmptyString => send (reply 400 "Username is required")
      | Some uname =>
          sendIf (bool_decide (uname = username req_user.2))
                 (reply 400 "Cannot send friend request to yourself") ;;
          targetUser ← User_findOne_username uname;
          match targetUser with
          | None => send (reply 404 "User not found")
          | Some (targetId, targetUser) =>
              currentUser ← User_findById req_user.1;
              currentUser ← deref currentUser;
              let existingFriend :=
                list_find (friendOf targetId) (friends currentUser) in
              match existingFriend with
              | Some (_, existingFriend) =>
                  match friend_status existingFriend with
                  | accepted => send (reply 400 "Already friends")
                  | pending => send (reply 400 "Friend request already sent")
                  | blocked => ret tt
                  end
              | None => ret tt
              end ;;
              let currentUser :=
                set_friends (friends currentUser ++ [mkFriend targetId pending now1])
                            currentUser in
              let targetUser :=
                set_friends (friends targetUser ++ [mkFriend req_user.1 pending now2])
                            targetUser in
              User_save req_user.1 currentUser ;;
              User_save targetId targetUser ;;
              ret (reply 200 "Friend request sent successfully")
          end
      end)).

(** [POST /api/social/friends/accept] *)
Definition post_friends_accept (token : Token) (body_userId : option ObjectId)
    : State -> Response * State :=
  auth token (fun req_user =>
    tryCatch "Error accepting friend request" (
      match body_userId with
      | None => send (reply 400 "User ID is required")
      | Some userId =>
          currentUser ← User_findById req_user.1;
          targetUser ← User_findById userId;
          match targetUser with
          | None => send (reply 404 "User not found")
          | Some targetUser =>
              currentUser ← deref currentUser;
              let currentUserFriend :=
                list_find (friendOf userId) (friends currentUser) in
              let targetUserFriend :=
                list_find (friendOf req_user.1) (friends targetUser) in
              match currentUserFriend, targetUserFriend with
              | Some (i, cf), Some (j, tf) =>
                  let currentUser :=
                    set_friends (<[i := set_status accepted cf]> (friends currentUser))
                                currentUser in
                  let targetUser :=
                    set_friends (<[j := set_status accepted tf]> (friends targetUser))
                                targetUser in
                  User_save req_user.1 currentUser ;;
                  User_save userId targetUser ;;
                  ret (reply 200 "Friend request accepted")
              | _, _ => send (reply 400 "Friend request not found")
              end
          end
      end)).

(** [member => member.userId.toString() === id.toString() && member.isActive] *)
Definition activeMemberOf (id : ObjectId) (m : Member) : Prop :=
  member_userId m = id ∧ member_isActive m = true.

Global Instance activeMemberOf_dec id m : Decision (activeMemberOf id m).
Proof. unfold activeMemberOf. apply _. Defined.

(** [POST /api/social/groups/:groupId/join]; [now1] is the clock reading
    of [addMember], [now2] the one of the user's group entry. *)
Definition post_groups_join (now1 now2 : Date) (token : Token)
    (groupId : ObjectId) : State -> Response * State :=
  auth token (fun req_user =>
    tryCatch "Error joining group" (
      group ← Group_findById groupId;
      match group with
      | None => send (reply 404 "Group not found")
      | Some group =>
          sendIf (negb (group_isActive group)) (reply 404 "Group not found") ;;
          sendIf (bool_decide (privacy group = private))
                 (reply 403 "Cannot join private group without invitation") ;;
          let existingMember :=
            list_find (activeMemberOf req_user.1) (members group) in
          sendIf (bool_decide (is_Some existingMember))
                 (reply 400 "Already a member of this group") ;;
          let activeMemberCount := memberCount group in
          sendIf (maxMembers group <=? Z.of_nat activeMemberCount)
                 (reply 400 "Group has reached maximum member limit") ;;
          let group := addMember now1 req_user.1 member group in
          Group_save groupId group ;;
          user ← User_findById req_user.1;
          user ← deref user;
          let user :=
            set_groups (groups user ++ [mkGroupRef groupId ug_member now2]) user in
          User_save req_user.1 user ;;
          ret (reply 200 "Successfully joined group")
      end)).

(** The socket server that [socketIo(server, ..)] builds. *)
Inductive SocketServer := socketIo.

(** The settings table of the Express application, as far as the
    handlers read it: [req.app.get('io')]. *)
Record App := mkApp {
  app_get_io : option SocketServer
}.

(** server.js builds the socket server [io] and exports it, and calls
    [app.set] nowhere: the setting ['io'] is undefined. *)
Definition app : App := mkApp None.

(** [POST /api/social/groups/:groupId/challenges/:challengeId/progress];
    [body_progress] is [None] when [typeof progress !== 'number']. *)
Definition post_challenges_progress (req_app : App) (now : Date)
    (token : Token) (groupId challengeId : ObjectId)
    (body_progress : option Z) : State -> Response * State :=
  auth token (fun req_user =>
    tryCatch "Error updating challenge progress" (
      match body_progress with
      | None => send (reply 400 "Progress must be a number")
      | Some newProgress =>
          group ← Group_findById groupId;
          match group with
          | None => send (reply 404 "Group not found")
          | Some group =>
              sendIf (negb (group_isActive group))
                     (reply 404 "Group not found") ;;
              let group :=
                updateChallengeProgress now challengeId req_user.1
                                        newProgress group in
              Group_save groupId group ;;
              io ← deref (app_get_io req_app);
              emit (mkEvent groupId challengeId req_user.1 newProgress) ;;
              ret (reply 200 "Progress updated successfully")
          end
      end)).

(** ** Further methods and handlers *)

(** *** models/Activity.js *)

Definition set_comments (cs : list Comment) (a : Activity) : Activity :=
  mkActivity (activity_userId a) (activity_type a) (category a) (title a)
    (content a) (description a) (duration a) (difficulty a) (tags a)
    (completionData a) (isShared a) (likes a) cs (activity_isActive a)
    (createdAt a).

Definition set_activity_isActive (b : bool) (a : Activity) : Activity :=
  mkActivity (activity_userId a) (activity_type a) (category a) (title a)
    (content a) (description a) (duration a) (difficulty a) (tags a)
    (completionData a) (isShared a) (likes a) (comments a) b (createdAt a).

(** [activitySchema.methods.addComment], with [now = new Date()]. *)
Definition addComment (now : Date) (userId : ObjectId) (text : string)
    (this : Activity) : Activity :=
  set_comments (comments this ++ [mkComment userId text now]) this.

(** *** models/Group.js *)

(** [groupSchema.methods.removeMember] *)
Definition removeMember (userId : ObjectId) (this : Group) : Group :=
  match list_find (fun m => member_userId m = userId) (members this) with
  | Some (i, m) =>
      set_members
        (<[i := mkMember (member_userId m) (member_role m) (member_joinedAt m)
                         false]> (members this))
        this
  | None => this
  end.

(** [groupSchema.methods.updateMemberRole] *)
Definition updateMemberRole (userId : ObjectId) (newRole : Role)
    (this : Group) : Group :=
  match list_find (activeMemberOf userId) (members this) with
  | Some (i, m) =>
      set_members
        (<[i := mkMember (member_userId m) newRole (member_joinedAt m)
                         (member_isActive m)]> (members this))
        this
  | None => this
  end.

(** [groupSchema.methods.joinChallenge] *)
Definition joinChallenge (now : Date) (challengeId userId : ObjectId)
    (this : Group) : Group :=
  match list_find (fun c => challenge_id c = challengeId) (challenges this) with
  | Some (ci, challenge) =>
      if challenge_isActive challenge then
        match list_find (fun p => participant_userId p = userId)
                        (participants challenge) with
        | Some _ => this
        | None =>
            set_challenges
              (<[ci := set_participants
                         (participants challenge
                          ++ [mkParticipant userId 0 now false])
                         challenge]> (challenges this))
              this
        end
      else this
  | None => this
  end.

(** *** routes/activities.js *)

(** A string is the sequence of its code units, each below 256.
    [String.prototype.trim] strips white space and line terminators;
    below 256 these are tab, line feed, vertical tab, form feed,
    carriage return, space and no-break space. *)
Definition isWhiteSpace (c : Ascii.ascii) : bool :=
  let n := Ascii.nat_of_ascii c in
  ((n =? 9) || (n =? 10) || (n =? 11) || (n =? 12) || (n =? 13)
   || (n =? 32) || (n =? 160))%nat.

Fixpoint trimStart (s : string) : string :=
  match s with
  | EmptyString => EmptyString
  | String c s' => if isWhiteSpace c then trimStart s' else s
  end.

Fixpoint trimEnd (s : string) : string :=
  match s with
  | EmptyString => EmptyString
  | String c s' =>
      match trimEnd s' with
      | EmptyString => if isWhiteSpace c then EmptyString
                       else String c EmptyString
      | t => String c t
      end
  end.

Definition trim (s : string) : string := trimEnd (trimStart s).

(** [POST /api/activities/:id/comment]; [body_content] is [None] when
    the body has no [content].  [save()] validates the new comment:
    its [content] is required and at most 300 long.  Of the answer,
    status and message are kept; its [comment] and [commentCount] are
    the last entry and the length of the saved list. *)
Definition post_activities_comment (now : Date) (token : Token)
    (id : ObjectId) (body_content : option string)
    : State -> Response * State :=
  auth token (fun req_user =>
    tryCatch "Error adding comment" (
      match body_content with
      | None | Some EmptyString =>
          send (reply 400 "Comment content is required")
      | Some text =>
          sendIf (String.length (trim text) =? 0)%nat
                 (reply 400 "Comment content is required") ;;
          activity ← Activity_findOne id activity_isActive;
          match activity with
          | None => send (reply 404 "Activity not found")
          | Some activity =>
              let activity := addComment now req_user.1 (trim text) activity in
              validate ((0 <? String.length (trim text))%nat
                        && (String.length (trim text) <=? 300)%nat) ;;
              Activity_save id activity ;;
              ret (reply 200 "Comment added successfully")
          end
      end)).

(** [DELETE /api/activities/:id]: a soft delete. *)
Definition delete_activities (token : Token) (id : ObjectId)
    : State -> Response * State :=
  auth token (fun req_user =>
    tryCatch "Error deleting activity" (
      activity ← Activity_findOne id
        (fun a => (activity_userId a =? req_user.1)%N && activity_isActive a);
      match activity with
      | None => send (reply 404 "Activity not found")
      | Some activity =>
          Activity_save id (set_activity_isActive false activity) ;;
          ret (reply 200 "Activity deleted successfully")
      end)).

(** *** routes/social.js *)

(** [DELETE /api/social/friends/:userId] *)
Definition delete_friends (token : Token) (userId : ObjectId)
    : State -> Response * State :=
  auth token (fun req_user =>
    tryCatch "Error removing friend" (
      currentUser ← User_findById req_user.1;
      targetUser ← User_findById userId;
      match targetUser with
      | None => send (reply 404 "User not found")
      | Some targetUser =>
          currentUser ← deref currentUser;
          let currentUser :=
            set_friends (filter (fun friend => ¬ friendOf userId friend)
                                (friends currentUser))
                        currentUser in
          let targetUser :=
            set_friends (filter (fun friend => ¬ friendOf req_user.1 friend)
                                (friends targetUser))
                        targetUser in
          User_save req_user.1 currentUser ;;
          User_save userId targetUser ;;
          ret (reply 200 "Friend removed successfully")
      end)).

(** [POST /api/social/groups/:groupId/challenges/:challengeId/join] *)
Definition post_challenges_join (now : Date) (token : Token)
    (groupId challengeId : ObjectId) : State -> Response * State :=
  auth token (fun req_user =>
    tryCatch "Error joining challenge" (
      group ← Group_findById groupId;
      match group with
      | None => send (reply 404 "Group not found")
      | Some group =>
          sendIf (negb (group_isActive group)) (reply 404 "Group not found") ;;
          let member := list_find (activeMemberOf req_user.1) (members group) in
          match member with
          | None => send (reply 403 "Must be a group member to join challenges")
          | Some _ =>
              let group := joinChallenge now challengeId req_user.1 group in
              Group_save groupId group ;;
              ret (reply 200 "Successfully joined challenge")
          end
      end)).

(** The enums of a challenge sub-document. *)
Definition CHALLENGE_TYPES : list string :=
  ["daily_activity"; "streak_challenge"; "group_goal"; "custom"]%string.

Definition GOAL_UNITS : list string :=
  ["days"; "activities"; "minutes"; "points"]%string.

Definition REWARD_TYPES : list string :=
  ["badge"; "points"; "title"; "custom"]%string.

(** [req.body] of the create-challenge request.  A date is [None] when
    [new Date(..)] of the field is an Invalid Date; [ch_rewards] holds
    the [type] of each reward. *)
Record ChallengeBody := mkChallengeBody {
  ch_title : option string;
  ch_description : option string;
  ch_type : option string;
  ch_target : Target;             (* goal.target *)
  ch_unit : option string;        (* goal.unit *)
  ch_startDate : option Date;
  ch_endDate : option Date;
  ch_rewards : list (option string)
}.

(** [groupSchema.methods.createChallenge]: the new sub-document, with
    the [_id] it is given and no participants whatever the data say, is
    pushed and returned.  Of its fields the record keeps [title],
    [goal.target], [participants] and [isActive] (default true). *)
Definition createChallenge (newId : ObjectId) (challengeData : ChallengeBody)
    (this : Group) : Group * Challenge :=
  let challenge :=
    mkChallenge newId (default ""%string (ch_title challengeData))
                (ch_target challengeData) [] true in
  (set_challenges (challenges this ++ [challenge]) this, challenge).

(** Schema validation of a new challenge, as run by [save()]: [title]
    required and at most 200 long, [description] at most 1000, [type]
    required and in its enum, [goal.unit] and each reward type in their
    enums, both dates required and valid. *)
Definition validChallenge (b : ChallengeBody) : bool :=
  match ch_title b with
  | Some t => (0 <? String.length t)%nat && (String.length t <=? 200)%nat
  | None => false
  end
  && opt_ok (fun d => (String.length d <=? 1000)%nat) (ch_description b)
  && match ch_type b with
     | Some ty => bool_decide (ty ∈ CHALLENGE_TYPES)
     | None => false
     end
  && opt_ok (fun u => bool_decide (u ∈ GOAL_UNITS)) (ch_unit b)
  && bool_decide (is_Some (ch_startDate b))
  && bool_decide (is_Some (ch_endDate b))
  && forallb (opt_ok (fun r => bool_decide (r ∈ REWARD_TYPES))) (ch_rewards b).

(** [POST /api/social/groups/:groupId/challenges]; [newId] is the [_id]
    of the new sub-document.  Of the answer, status and message are
    kept; its [challenge] is the sub-document [createChallenge]
    returned. *)
Definition post_groups_challenges (newId : ObjectId) (token : Token)
    (groupId : ObjectId) (body : ChallengeBody) : State -> Response * State :=
  auth token (fun req_user =>
    tryCatch "Error creating challenge" (
      group ← Group_findById groupId;
      match group with
      | None => send (reply 404 "Group not found")
      | Some group =>
          sendIf (negb (group_isActive group)) (reply 404 "Group not found") ;;
          let member := list_find (activeMemberOf req_user.1) (members group) in
          match member with
          | Some (_, m) =>
              match member_role m with
              | admin | moderator => ret tt
              | member =>
                  send (reply 403
                          "Only admins and moderators can create challenges")
              end
          | None =>
              send (reply 403 "Only admins and moderators can create challenges")
          end ;;
          let group := (createChallenge newId body group).1 in
          validate (validChallenge body) ;;
          Group_save groupId group ;;
          ret (reply 201 "Challenge created successfully")
      end)).

(** ** Vocabulary of the properties *)

(** The calls that write [socialData.likes]. *)
Inductive LikeCall :=
| CallAddLike (now : Date) (userId : ObjectId)
| CallRemoveLike (userId : ObjectId).

Definition runLikeCall (a : Activity) (c : LikeCall) : Activity :=
  match c with
  | CallAddLike now userId => addLike now userId a
  | CallRemoveLike userId => removeLike userId a
  end.

(** The user ids of the like entries, in order. *)
Definition likers (a : Activity) : list ObjectId := like_userId <$> likes a.

(** The status that user [a]'s friends list reports for user [b]: the
    status of the entry [find] returns. *)
Definition friendStatus (s : State) (a b : ObjectId) : option FriendStatus :=
  match db_users s !! a with
  | Some u => (fun e => friend_status e.2) <$> list_find (friendOf b) (friends u)
  | None => None
  end.

(** State [s'] holds the users of [s], each with the friends list it
    has in [s], and the activities, groups and events of [s]. *)
Definition sameFriends (s s' : State) : Prop :=
  (∀ k, friends <$> db_users s' !! k = friends <$> db_users s !! k)
  ∧ db_activities s' = db_activities s
  ∧ db_groups s' = db_groups s
  ∧ emitted s' = emitted s.

(** The state after the users collection took the value [us]. *)
Definition with_users (us : gmap ObjectId User) (s : State) : State :=
  mkState us (db_activities s) (db_groups s) (emitted s).

(** A call of [updateChallengeProgress]. *)
Record ProgressUpdate := mkProgressUpdate {
  pu_now : Date;
  pu_challengeId : ObjectId;
  pu_userId : ObjectId;
  pu_progress : Z
}.

Definition runProgressUpdate (g : Group) (u : ProgressUpdate) : Group :=
  updateChallengeProgress (pu_now u) (pu_challengeId u) (pu_userId u)
                          (pu_progress u) g.

(** Participant [p'] is [p] later on: the same user, and completed if
    [p] was. *)
Definition staysCompleted (p p' : Participant) : Prop :=
  participant_userId p' = participant_userId p
  ∧ (participant_isCompleted p = true → participant_isCompleted p' = true).

(** The same for a challenge, participant by participant, and for the
    challenges of a group, challenge by challenge. *)
Definition challengeStaysCompleted (c c' : Challenge) : Prop :=
  challenge_id c' = challenge_id c
  ∧ target c' = target c
  ∧ Forall2 staysCompleted (participants c) (participants c').

Definition groupStaysCompleted (g g' : Group) : Prop :=
  Forall2 challengeStaysCompleted (challenges g) (challenges g').

(** The shared, active activities of a collection. *)
Definition sharedActive (activities : gmap ObjectId Activity)
    : list (ObjectId * Activity) :=
  filter trendingMatch (map_to_list activities).

(** The streak counters are in order for [n] completed activities. *)
Definition streakInOrder (sd : StreakData) (n : Z) : Prop :=
  1 <= currentStreak sd
  ∧ currentStreak sd <= longestStreak sd
  ∧ longestStreak sd <= totalActivitiesCompleted sd
  ∧ totalActivitiesCompleted sd = n
  ∧ is_Some (lastActivityDate sd).

(** The streak data of a user as the schema defaults create it. *)
Definition newStreakData : StreakData := mkStreakData 0 0 None 0.

(** The token is one of an active user of the collection. *)
Definition authenticated (token : Token) (s : State) : Prop :=
  ∃ uid user, token = Verified uid ∧ db_users s !! uid = Some user
              ∧ user_isActive user = true.

(** The answer [r] to a request on state [s] is a 401 and nothing was
    written. *)
Definition unauthorized (r : Response * State) (s : State) : Prop :=
  status r.1 = 401%nat ∧ r.2 = s.

(** The string holds white space only. *)
Definition blank (s : string) : Prop :=
  Forall (fun c => isWhiteSpace c = true) (list_ascii_of_string s).

(** The user ids of the member entries, in order. *)
Definition memberIds (g : Group) : list ObjectId :=
  member_userId <$> members g.

(** The calls that write [members]. *)
Inductive MemberCall :=
| CallAddMember (now : Date) (userId : ObjectId) (role : Role)
| CallRemoveMember (userId : ObjectId)
| CallUpdateMemberRole (userId : ObjectId) (newRole : Role).

Definition runMemberCall (g : Group) (c : MemberCall) : Group :=
  match c with
  | CallAddMember now userId role => addMember now userId role g
  | CallRemoveMember userId => removeMember userId g
  | CallUpdateMemberRole userId newRole => updateMemberRole userId newRole g
  end.

(** The user ids of the participants of a challenge, in order. *)
Definition participantIds (c : Challenge) : list ObjectId :=
  participant_userId <$> participants c.

(** The calls that write the participants of the challenges. *)
Inductive ChallengeCall :=
| CallJoinChallenge (now : Date) (challengeId userId : ObjectId)
| CallUpdateProgress (now : Date) (challengeId userId : ObjectId)
                     (newProgress : Z).

Definition runChallengeCall (g : Group) (c : ChallengeCall) : Group :=
  match c with
  | CallJoinChallenge now challengeId userId =>
      joinChallenge now challengeId userId g
  | CallUpdateProgress now challengeId userId newProgress =>
      updateChallengeProgress now challengeId userId newProgress g
  end.

(** The participant entry of a user in a challenge of the group: the
    entry that [joinChallenge] looks for and [updateChallengeProgress]
    writes. *)
Definition participantOf (g : Group) (challengeId userId : ObjectId)
    : option Participant :=
  match list_find (fun c => challenge_id c = challengeId) (challenges g) with
  | Some (_, c) =>
      snd <$> list_find (fun p => participant_userId p = userId)
                        (participants c)
  | None => None
  end.

(** ** Sample data *)

Definition nobody : Profile := mkProfile None "".

(** Two users with a pending request between them. *)
Definition alice : User :=
  mkUser "alice" nobody (mkStreakData 0 0 None 0) [mkFriend 2 pending 0] [] true.

Definition bob : User :=
  mkUser "bob" nobody (mkStreakData 0 0 None 0) [mkFriend 1 pending 0] [] true.

Definition friends_pending : State :=
  mkState (<[2%N := bob]> (<[1%N := alice]> ∅)) ∅ ∅ [].

(** Carol holds a blocked entry for Dave, Dave none for Carol. *)
Definition carol : User :=
  mkUser "carol" nobody (mkStreakData 0 0 None 0) [mkFriend 4 blocked 0] [] true.

Definition dave : User :=
  mkUser "dave" nobody (mkStreakData 0 0 None 0) [] [] true.

Definition friends_blocked : State :=
  mkState (<[4%N := dave]> (<[3%N := carol]> ∅)) ∅ ∅ [].

(** Two users with no entry for each other. *)
Definition erin : User :=
  mkUser "erin" nobody (mkStreakData 0 0 None 0) [] [] true.

Definition strangers : State :=
  mkState (<[4%N := dave]> (<[5%N := erin]> ∅)) ∅ ∅ [].

(** A public group of capacity 2 with one active member, and the same
    group at capacity. *)
Definition walkers : Group :=
  mkGroup "walkers" public [mkMember 4 admin 0 true] [] 2 true.

Definition walkers_full : Group :=
  mkGroup "walkers" public [mkMember 4 admin 0 true; mkMember 3 member 0 true]
          [] 2 true.

Definition hideout : Group :=
  mkGroup "hideout" private [mkMember 4 admin 0 true] [] 2 true.

Definition clubs : State :=
  mkState (<[4%N := dave]> (<[5%N := erin]> ∅)) ∅
          (<[12%N := hideout]> (<[11%N := walkers_full]> (<[10%N := walkers]> ∅)))
          [].

(** A group with one challenge of target 7, which Dave has completed
    with progress 7; Erin is a member and no participant. *)
Definition week_of_walks : Challenge :=
  mkChallenge 20 "a week of walks" (number 7) [mkParticipant 4 7 0 true] true.

Definition stretchers : Group :=
  mkGroup "stretchers" public
          [mkMember 4 admin 0 true; mkMember 5 member 0 true]
          [week_of_walks] 100 true.

Definition challenged : State :=
  mkState (<[4%N := dave]> (<[5%N := erin]> ∅)) ∅ (<[10%N := stretchers]> ∅) [].

(** Erin's activity, already completed with rating 4. *)
Definition morning_walk : Activity :=
  mkActivity 5 "exercise" "stress_relief" "Morning walk" "Walk for ten minutes"
    None 10 "beginner" []
    (mkCompletionData true (Some 1000) (Some 4) None (mkMoodPair None None) None)
    false [] [] true 500.

Definition walked : State :=
  mkState (<[5%N := erin]> ∅) (<[30%N := morning_walk]> ∅) ∅ [].

(** A shared activity of Dave with [n] likes and [m] comments. *)
Definition shared_post (n m : nat) (created : Date) : Activity :=
  mkActivity 4 "affirmation" "mindfulness" "post" "text" None 5 "beginner" []
    (mkCompletionData false None None None (mkMoodPair None None) None)
    true
    ((fun k => mkLike (N.of_nat k) 0) <$> seq 0 n)
    ((fun k => mkComment (N.of_nat k) "nice" 0) <$> seq 0 m)
    true created.

(** The example of the specification: three activities of score 5 and
    one of score 6, the oldest of all. *)
Definition feed : gmap ObjectId Activity :=
  <[41%N := shared_post 5 0 100]>
    (<[42%N := shared_post 1 2 200]>
       (<[43%N := shared_post 3 1 300]>
          (<[44%N := shared_post 0 3 50]> ∅))).

(** Dave's shared activity, not completed, liked by Erin. *)
Definition evening_stretch : Activity :=
  mkActivity 4 "stretching" "relaxation" "Evening stretch" "Stretch" None 5
    "beginner" []
    (mkCompletionData false None None None (mkMoodPair None None) None)
    true [mkLike 5 0] [] true 600.

Definition studio : State :=
  mkState (<[4%N := dave]> (<[5%N := erin]> ∅))
          (<[31%N := evening_stretch]> (<[30%N := morning_walk]> ∅)) ∅ [].

(** A comment of 301 code units. *)
Definition long_text : string := string_of_list_ascii (replicate 301 (Ascii.ascii_of_nat 97)).

(** The sample group with a second, closed challenge. *)
Definition old_challenge : Challenge :=
  mkChallenge 21 "last month" (number 30) [] false.

Definition stretchers2 : Group :=
  mkGroup "stretchers" public
          [mkMember 4 admin 0 true; mkMember 5 member 0 true]
          [week_of_walks; old_challenge] 100 true.

Definition challenged2 : State :=
  mkState (<[4%N := dave]> (<[5%N := erin]> (<[3%N := carol]> ∅))) ∅
          (<[10%N := stretchers2]> ∅) [].

(** The sample group with a third challenge, whose target is [null]. *)
Definition open_ended : Challenge :=
  mkChallenge 22 "open ended" null [] true.

Definition stretchers3 : Group :=
  mkGroup "stretchers" public
          [mkMember 4 admin 0 true; mkMember 5 member 0 true]
          [week_of_walks; old_challenge; open_ended] 100 true.

(** A well-formed body of a create-challenge request. *)
Definition ten_day_body : ChallengeBody :=
  mkChallengeBody (Some "ten days"%string) None (Some "streak_challenge"%string)
                  (number 10) (Some "days"%string) (Some 100) (Some 200) [].

(** * Properties *)

(** ** Running a handler *)

(** Unfolds the monad of a handler applied to a state. *)
Ltac step_unfold :=
  unfold tryCatch, mbind, Step_bind, bind, sendIf, validate, deref,
    User_findById, User_findOne_username, User_save, Activity_findOne,
    Activity_save, Group_findById, Group_save, emit, mret, Step_ret, ret,
    send, throw in *.

(** [auth] lets the request of an active user through. *)
Lemma auth_verified uid user next s :
  db_users s !! uid = Some user → user_isActive user = true →
  auth (Verified uid) next s = next (uid, user) s.
Proof. intros Hu Hact. unfold auth. by rewrite Hu, Hact. Qed.

(** ** Streak counters ([updateStreak]) *)

Section Streak.
Implicit Types (u : User) (today : Date) (clock : list Date).

Lemma updateStreak_total today u :
  totalActivitiesCompleted (streakData (updateStreak today u))
  = totalActivitiesCompleted (streakData u) + 1.
Proof.
  unfold updateStreak. destruct u as [? ? [c l [d|] t] ? ? ?]; simpl;
    repeat case_match; reflexivity.
Qed.

(** What the code does with [currentStreak]: it goes by the number of
    whole 24-hour periods elapsed since [lastActivityDate]. *)
Lemma updateStreak_current today u :
  currentStreak (streakData (updateStreak today u))
  = match lastActivityDate (streakData u) with
    | None => 1
    | Some lastActivity =>
        if daysDiff today lastActivity =? 1
        then currentStreak (streakData u) + 1
        else if daysDiff today lastActivity >? 1 then 1
        else currentStreak (streakData u)
    end.
Proof.
  unfold updateStreak. destruct u as [? ? [c l [d|] t] ? ? ?]; simpl;
    repeat case_match; reflexivity.
Qed.

Lemma updateStreak_longest today u :
  longestStreak (streakData (updateStreak today u))
  = Z.max (longestStreak (streakData u))
          (currentStreak (streakData (updateStreak today u))).
Proof.
  unfold updateStreak. destruct u as [? ? [c l [d|] t] ? ? ?]; simpl;
    repeat case_match; simpl in *; lia.
Qed.

Lemma updateStreak_longest_le today u :
  longestStreak (streakData u)
  <= longestStreak (streakData (updateStreak today u)).
Proof. rewrite updateStreak_longest. lia. Qed.

Lemma completions_snoc clock today u :
  completions (clock ++ [today]) u = updateStreak today (completions clock u).
Proof. unfold completions. by rewrite foldl_app. Qed.

Lemma completions_longest_le clock u :
  longestStreak (streakData u)
  <= longestStreak (streakData (completions clock u)).
Proof.
  induction clock as [|today clock IH] using rev_ind; [done|].
  rewrite completions_snoc.
  etrans; [exact IH | apply updateStreak_longest_le].
Qed.

(** For every zone there are two completions on consecutive calendar
    days, 23:00 and 01:00 local time, that the code takes for the same
    day, and two completions a calendar day apart with an idle day
    between them, 23:00 and 01:00 two days later, that it takes for
    consecutive days. *)
Lemma daysDiff_is_not_calendarDayDiff (tz k : Z) :
  let lastActivity := k * MS_PER_DAY - tz - 3600000 in
  (calendarDayDiff tz (lastActivity + 7200000) lastActivity = 1
   ∧ daysDiff (lastActivity + 7200000) lastActivity = 0)
  ∧ (calendarDayDiff tz (lastActivity + 93600000) lastActivity = 2
     ∧ daysDiff (lastActivity + 93600000) lastActivity = 1).
Proof.
  unfold calendarDayDiff, calendarDay, daysDiff.
  change MS_PER_DAY with 86400000. cbv zeta.
  repeat split; Z.to_euclidean_division_equations; lia.
Qed.

(** C1. The streak rule of the specification goes by the calendar-day
    difference between [lastActivityDate] and today.  The code does
    not: a user whose last activity was on 2024-01-01 at 23:00 UTC and
    who completes an activity on 2024-01-02 at 01:00 UTC is one
    calendar day later, yet [updateStreak] computes a difference of 0
    days and leaves [currentStreak] (and [lastActivityDate]) as they
    were instead of adding 1; only [totalActivitiesCompleted] moves. *)
Theorem updateStreak_next_day_within_24h (u : User) (cur longest total : Z) :
  let lastActivity := 1704150000000 in
  let today := 1704157200000 in
  let before :=
    set_streakData (mkStreakData cur longest (Some lastActivity) total) u in
  calendarDayDiff 0 today lastActivity = 1
  ∧ daysDiff today lastActivity = 0
  ∧ currentStreak (streakData (updateStreak today before)) = cur
  ∧ lastActivityDate (streakData (updateStreak today before))
    = Some lastActivity
  ∧ totalActivitiesCompleted (streakData (updateStreak today before))
    = total + 1.
Proof.
  simpl. split; [reflexivity|]. split; [reflexivity|].
  unfold updateStreak; simpl.
  change (daysDiff 1704157200000 1704150000000) with 0; simpl.
  destruct (cur >? longest); simpl; auto.
Qed.

(** C2. Over every sequence of completion events, whatever the clock
    readings, [longestStreak] after an event is at least its value
    before the event, and so at least its value at the start. *)
Theorem longestStreak_never_decreases clock today u :
  longestStreak (streakData (completions clock u))
  <= longestStreak (streakData (completions (clock ++ [today]) u))
  ∧ longestStreak (streakData u)
    <= longestStreak (streakData (completions (clock ++ [today]) u)).
Proof.
  split.
  - rewrite completions_snoc. apply updateStreak_longest_le.
  - apply completions_longest_le.
Qed.
End Streak.

(** ** The like list ([addLike], [removeLike], the like route) *)

Section Likes.
Implicit Types (a : Activity) (uid : ObjectId) (l : list Like).

Lemma find_like_None uid l :
  list_find (likedBy uid) l = None ↔ uid ∉ like_userId <$> l.
Proof.
  rewrite list_find_None, Forall_forall, list_elem_of_fmap.
  unfold likedBy. split.
  - intros Hall (like & -> & Hin). by apply (Hall like).
  - intros Hnone like Hin Hu. apply Hnone. by exists like.
Qed.

Lemma addLike_liked now uid a : uid ∈ likers a → addLike now uid a = a.
Proof.
  intros Hin. unfold addLike.
  destruct (list_find _ _) eqn:Hfind; [done|].
  by apply find_like_None in Hfind.
Qed.

Lemma addLike_likers now uid a : uid ∈ likers (addLike now uid a).
Proof.
  unfold addLike, likers.
  destruct (list_find _ _) as [[i like]|] eqn:Hfind.
  - apply list_find_Some in Hfind as (Hi & Hp & _).
    apply list_elem_of_fmap. exists like. split; [done|].
    by eapply list_elem_of_lookup_2.
  - simpl. rewrite fmap_app. set_solver.
Qed.

Lemma addLike_NoDup now uid a :
  NoDup (likers a) → NoDup (likers (addLike now uid a)).
Proof.
  intros Hnd. unfold addLike, likers in *.
  destruct (list_find _ _) eqn:Hfind; [done|].
  apply find_like_None in Hfind. simpl. rewrite fmap_app.
  apply NoDup_app. split_and!; [done| |apply NoDup_singleton].
  intros x Hx ->%list_elem_of_singleton. done.
Qed.

Lemma removeLike_NoDup uid a :
  NoDup (likers a) → NoDup (likers (removeLike uid a)).
Proof.
  unfold removeLike, likers. simpl. intros Hnd.
  eapply sublist_NoDup; [exact Hnd | apply fmap_sublist, sublist_filter].
Qed.

(** Removing the likes of [uid] from a list in which only [like] is
    by [uid] removes [like] and nothing else. *)
Lemma filter_single_like uid l1 like l2 :
  like_userId like = uid →
  NoDup (like_userId <$> (l1 ++ like :: l2)) →
  filter (fun x => ¬ likedBy uid x) (l1 ++ like :: l2) = l1 ++ l2.
Proof.
  intros Hu Hnd.
  rewrite fmap_app, fmap_cons in Hnd.
  apply NoDup_app in Hnd as (_ & Hl1 & Hnd).
  apply NoDup_cons in Hnd as (Hl2 & _).
  assert (Hkeep : ∀ l, like_userId like ∉ like_userId <$> l →
                       filter (fun x => ¬ likedBy uid x) l = l).
  { intros l Hl. induction l as [|y l IH]; [done|].
    rewrite fmap_cons, not_elem_of_cons in Hl. destruct Hl as [Hy Hl].
    rewrite filter_cons_True; [by rewrite IH|].
    unfold likedBy. congruence. }
  rewrite filter_app, filter_cons_False by (unfold likedBy; auto).
  rewrite !Hkeep; [done|done|].
  intros Hin. apply (Hl1 _ Hin). left.
Qed.

Lemma removeLike_one uid a :
  NoDup (likers a) → uid ∈ likers a →
  ∃ l1 like l2,
    likes a = l1 ++ like :: l2
    ∧ like_userId like = uid
    ∧ removeLike uid a = set_likes (l1 ++ l2) a.
Proof.
  unfold likers. intros Hnd (like & Hu & Hin)%list_elem_of_fmap.
  apply list_elem_of_split in Hin as (l1 & l2 & Hsplit).
  exists l1, like, l2. split_and!; [done|done|].
  unfold removeLike. rewrite Hsplit in *.
  by rewrite filter_single_like.
Qed.

Lemma runLikeCalls_NoDup (calls : list LikeCall) a :
  NoDup (likers a) → NoDup (likers (foldl runLikeCall a calls)).
Proof.
  revert a. induction calls as [|c calls IH]; intros a Hnd; [done|].
  simpl. apply IH. destruct c; simpl;
    auto using addLike_NoDup, removeLike_NoDup.
Qed.

(** C4. Take an activity as it is created, with no likes, and let any
    sequence of [addLike] and [removeLike] calls run on it (the like
    route makes no other call).  Then no two entries of [likes] carry
    the same user id; liking again by a user who has a like entry
    changes nothing; and unliking by that user removes that one entry
    and leaves the entries of all other users as they were, in their
    order, so the list is exactly one entry shorter. *)
Theorem likes_one_entry_per_user (calls : list LikeCall) (a0 : Activity) :
  let a := foldl runLikeCall (set_likes [] a0) calls in
  NoDup (likers a)
  ∧ (∀ now uid, uid ∈ likers a → addLike now uid a = a)
  ∧ (∀ now now' uid,
       addLike now' uid (addLike now uid a) = addLike now uid a)
  ∧ (∀ uid, uid ∈ likers a →
       ∃ l1 like l2,
         likes a = l1 ++ like :: l2
         ∧ like_userId like = uid
         ∧ (uid ∉ like_userId <$> (l1 ++ l2))
         ∧ removeLike uid a = set_likes (l1 ++ l2) a
         ∧ S (length (likes (removeLike uid a))) = length (likes a)).
Proof.
  intros a.
  assert (Hnd : NoDup (likers a)).
  { apply runLikeCalls_NoDup. apply NoDup_nil_2. }
  split_and!; [done|..].
  - intros. by apply addLike_liked.
  - intros. apply addLike_liked, addLike_likers.
  - intros uid Hin.
    destruct (removeLike_one uid a Hnd Hin) as (l1 & like & l2 & Hl & Hu & Hr).
    exists l1, like, l2. split_and!; [done|done| |done|].
    + unfold likers in Hnd. rewrite Hl, fmap_app, fmap_cons in Hnd.
      apply NoDup_app in Hnd as (_ & Hl1 & Hnd).
      apply NoDup_cons in Hnd as (Hl2 & _).
      rewrite fmap_app, elem_of_app. intros [Hin1|Hin2].
      * apply (Hl1 _ Hin1). rewrite Hu. left.
      * apply Hl2. by rewrite Hu.
    + rewrite Hr, Hl. simpl. rewrite !length_app. simpl. lia.
Qed.

(** The like route makes one of the two calls: [removeLike] when the
    user has a like entry, [addLike] otherwise. *)
Lemma post_activities_like_calls now uid user id a s :
  db_users s !! uid = Some user → user_isActive user = true →
  db_activities s !! id = Some a → activity_isActive a = true →
  ∃ call,
    (call = CallRemoveLike uid ∧ uid ∈ likers a
     ∨ call = CallAddLike now uid ∧ uid ∉ likers a)
    ∧ (post_activities_like now (Verified uid) id s).2
      = mkState (db_users s) (<[id := runLikeCall a call]> (db_activities s))
                (db_groups s) (emitted s).
Proof.
  intros Hu Hact Ha Hactive. unfold post_activities_like.
  rewrite (auth_verified uid user) by done.
  unfold tryCatch, mbind, Step_bind, bind, Activity_findOne, Activity_save,
    mret, Step_ret, ret, send.
  simpl. rewrite Ha, Hactive.
  destruct (list_find (likedBy uid) (likes a)) as [[k like]|] eqn:Hfind.
  - exists (CallRemoveLike uid). split; [left; split; [done|]|done].
    apply list_find_Some in Hfind as (Hk & Hp & _).
    apply list_elem_of_fmap. exists like. split; [done|].
    by eapply list_elem_of_lookup_2.
  - exists (CallAddLike now uid). split; [right; split; [done|]|done].
    by apply find_like_None.
Qed.
End Likes.

(** ** Completing an activity (the complete route) *)

Section Complete.
Implicit Types (s : State) (a : Activity) (body : CompleteBody).

Lemma complete_rejects_completed now today uid user id body s a :
  db_users s !! uid = Some user → user_isActive user = true →
  db_activities s !! id = Some a →
  activity_userId a = uid → activity_isActive a = true →
  isCompleted (completionData a) = true →
  post_activities_complete now today (Verified uid) id body s
  = (reply 400 "Activity already completed", s).
Proof.
  intros Hu Hact Ha Hown Hactive Hdone.
  unfold post_activities_complete. rewrite (auth_verified uid user) by done.
  step_unfold. simpl. rewrite Ha, Hown, N.eqb_refl, Hactive. simpl.
  by rewrite Hdone.
Qed.

(** An activity of another user, or one that was deleted, is not
    found, completed or not; nothing is written. *)
Lemma complete_not_found now today uid user id body s a :
  db_users s !! uid = Some user → user_isActive user = true →
  db_activities s !! id = Some a →
  activity_userId a ≠ uid ∨ activity_isActive a = false →
  post_activities_complete now today (Verified uid) id body s
  = (reply 404 "Activity not found", s).
Proof.
  intros Hu Hact Ha Hhidden.
  unfold post_activities_complete. rewrite (auth_verified uid user) by done.
  step_unfold. simpl. rewrite Ha.
  destruct Hhidden as [Hother | Hdeleted].
  - by rewrite (proj2 (N.eqb_neq _ _) Hother).
  - by rewrite Hdeleted, andb_false_r.
Qed.

(** The first completion: the activity is marked completed and
    saved, then the user's streak is updated and saved. *)
Lemma complete_first now today uid user id body s a :
  db_users s !! uid = Some user → user_isActive user = true →
  db_activities s !! id = Some a →
  activity_userId a = uid → activity_isActive a = true →
  isCompleted (completionData a) = false →
  let a' := markCompleted now (body_rating body) (body_feedback body)
              (body_moodBefore body) (body_moodAfter body) (body_notes body)
              a in
  validCompletionData (completionData a') = true →
  post_activities_complete now today (Verified uid) id body s
  = (mkResponse 200 "Activity completed successfully"
       (CompletePayload a' (streakData (updateStreak today user))),
     mkState (<[uid := updateStreak today user]> (db_users s))
             (<[id := a']> (db_activities s)) (db_groups s) (emitted s)).
Proof.
  intros Hu Hact Ha Hown Hactive Hnew a' Hvalid.
  unfold post_activities_complete. rewrite (auth_verified uid user) by done.
  step_unfold. simpl. rewrite Ha, Hown, N.eqb_refl, Hactive. simpl.
  rewrite Hnew. unfold a', markCompleted in *. simpl in *.
  rewrite Hvalid. simpl. by rewrite Hu.
Qed.

(** After a completion that succeeded, the next complete request for
    the same activity is refused and writes nothing. *)
Lemma complete_second now today now' today' uid user id body body' s a :
  db_users s !! uid = Some user → user_isActive user = true →
  db_activities s !! id = Some a →
  activity_userId a = uid → activity_isActive a = true →
  isCompleted (completionData a) = false →
  validCompletionData
    (completionData
       (markCompleted now (body_rating body) (body_feedback body)
          (body_moodBefore body) (body_moodAfter body) (body_notes body) a))
  = true →
  let s' := (post_activities_complete now today (Verified uid) id body s).2 in
  post_activities_complete now' today' (Verified uid) id body' s'
  = (reply 400 "Activity already completed", s').
Proof.
  intros Hu Hact Ha Hown Hactive Hnew Hvalid s'. unfold s'.
  rewrite (complete_first now today uid user id body s a) by done.
  eapply complete_rejects_completed; simpl.
  - apply lookup_insert_eq.
  - done.
  - apply lookup_insert_eq.
  - done.
  - done.
  - done.
Qed.

(** C3. A complete request of the owner for an active activity whose
    [completionData.isCompleted] is already true is answered with
    status 400, "Activity already completed", and nothing is
    written: the activity keeps its [completionData] and the user's
    [streakData] is not updated. *)
Theorem complete_already_completed now today uid user id body s a :
  db_users s !! uid = Some user → user_isActive user = true →
  db_activities s !! id = Some a →
  activity_userId a = uid → activity_isActive a = true →
  isCompleted (completionData a) = true →
  let r := post_activities_complete now today (Verified uid) id body s in
  r.1 = reply 400 "Activity already completed"
  ∧ r.2 = s
  ∧ completionData <$> db_activities r.2 !! id = Some (completionData a)
  ∧ streakData <$> db_users r.2 !! uid = Some (streakData user).
Proof.
  intros Hu Hact Ha Hown Hactive Hdone r. unfold r.
  rewrite (complete_rejects_completed now today uid user id body s a)
    by done.
  simpl. by rewrite Ha, Hu.
Qed.
End Complete.

Lemma complete_already_completed_witness :
  post_activities_complete 2000 2000 (Verified 5) 30
    (mkCompleteBody (Some 1) None None None None) walked
  = (reply 400 "Activity already completed", walked).
Proof.
  destruct (complete_already_completed 2000 2000 5 erin 30
              (mkCompleteBody (Some 1) None None None None) walked morning_walk
              eq_refl eq_refl eq_refl eq_refl eq_refl eq_refl)
    as (Hr & Hs & _).
  apply injective_projections; [exact Hr | exact Hs].
Defined.

(** ** Friend requests (the request and accept routes) *)

(** A write through the reference that [find] returned leaves [find]
    on the same entry, as long as the entry still matches. *)
Lemma list_find_update {A} (P : A → Prop) `{!∀ x, Decision (P x)}
    (l : list A) i x y :
  list_find P l = Some (i, x) → P y →
  list_find P (<[i := y]> l) = Some (i, y).
Proof.
  intros (Hi & Hx & Hlt)%list_find_Some Hy. apply list_find_Some.
  split_and!; [|done|].
  - apply list_lookup_insert_eq. by eapply lookup_lt_Some.
  - intros j z Hj Hji. rewrite list_lookup_insert_ne in Hj by lia. eauto.
Qed.

Lemma state_eta s : mkState (db_users s) (db_activities s) (db_groups s) (emitted s) = s.
Proof. by destruct s. Qed.

Section Accept.
Context (s : State) (uidA uidB : ObjectId) (userA userB : User).
Context (i j : nat) (fa fb : Friend).
Hypothesis HA : db_users s !! uidA = Some userA.
Hypothesis HAactive : user_isActive userA = true.
Hypothesis HB : db_users s !! uidB = Some userB.
Hypothesis HAB : list_find (friendOf uidB) (friends userA) = Some (i, fa).
Hypothesis HBA : list_find (friendOf uidA) (friends userB) = Some (j, fb).

(** C5. Let A and B hold an entry for each other (a pending request
    in particular) and let A accept.  The route answers 200, "Friend
    request accepted"; it writes A's document and then B's, each
    with the entry for the other set to accepted; and afterwards A's
    entry for B and B's entry for A both report accepted. *)
Theorem accept_flips_both_sides :
  let userA' :=
    set_friends (<[i := set_status accepted fa]> (friends userA)) userA in
  let userB' :=
    set_friends (<[j := set_status accepted fb]> (friends userB)) userB in
  let s' := with_users (<[uidB := userB']> (<[uidA := userA']> (db_users s))) s in
  post_friends_accept (Verified uidA) (Some uidB) s
  = (reply 200 "Friend request accepted", s')
  ∧ friendStatus s' uidA uidB = Some accepted
  ∧ friendStatus s' uidB uidA = Some accepted.
Proof.
  intros userA' userB' s'.
  assert (HfA : list_find (friendOf uidB) (friends userA')
                = Some (i, set_status accepted fa)).
  { eapply list_find_update; [exact HAB|].
    apply list_find_Some in HAB as (_ & Hp & _). exact Hp. }
  assert (HfB : list_find (friendOf uidA) (friends userB')
                = Some (j, set_status accepted fb)).
  { eapply list_find_update; [exact HBA|].
    apply list_find_Some in HBA as (_ & Hp & _). exact Hp. }
  split_and!.
  - unfold post_friends_accept. rewrite (auth_verified uidA userA) by done.
    step_unfold. simpl. rewrite HB, HA. simpl. by rewrite HAB, HBA.
  - unfold friendStatus, s', with_users. simpl.
    destruct (decide (uidB = uidA)) as [->|Hne].
    + rewrite lookup_insert_eq. by rewrite HfB.
    + rewrite lookup_insert_ne, lookup_insert_eq by done. by rewrite HfA.
  - unfold friendStatus, s', with_users. simpl.
    rewrite lookup_insert_eq. by rewrite HfB.
Qed.
End Accept.

Lemma accept_flips_both_sides_witness :
  (post_friends_accept (Verified 1) (Some 2%N) friends_pending).1
  = reply 200 "Friend request accepted"
  ∧ friendStatus (post_friends_accept (Verified 1) (Some 2%N) friends_pending).2
                 1 2 = Some accepted
  ∧ friendStatus (post_friends_accept (Verified 1) (Some 2%N) friends_pending).2
                 2 1 = Some accepted.
Proof.
  destruct (accept_flips_both_sides friends_pending 1 2 alice bob 0 0
              (mkFriend 2 pending 0) (mkFriend 1 pending 0)
              eq_refl eq_refl eq_refl eq_refl eq_refl) as (Hr & HA & HB).
  rewrite Hr. simpl. split_and!; [reflexivity | exact HA | exact HB].
Defined.

(** [User.findOne({ username })] under the unique index on [username]. *)
Lemma findOne_username_unique (us : gmap ObjectId User) tid t uname :
  us !! tid = Some t → username t = uname →
  (∀ id u, us !! id = Some u → username u = uname → id = tid) →
  snd <$> list_find (fun d => username d.2 = uname) (map_to_list us)
  = Some (tid, t).
Proof.
  intros Ht Hn Huniq.
  destruct (list_find _ _) as [[k [id u]]|] eqn:Hfind; simpl.
  - apply list_find_Some in Hfind as (Hk & Hp & _). simpl in Hp.
    apply list_elem_of_lookup_2, elem_of_map_to_list in Hk.
    assert (id = tid) as -> by eauto. congruence.
  - apply list_find_None in Hfind. rewrite Forall_forall in Hfind.
    destruct (Hfind (tid, t)); [|done]. by apply elem_of_map_to_list.
Qed.

Section Request.
Context (s : State) (cid tid : ObjectId) (c t : User) (uname : string).
Hypothesis Hc : db_users s !! cid = Some c.
Hypothesis Hcactive : user_isActive c = true.
Hypothesis Ht : db_users s !! tid = Some t.
Hypothesis Hname : username t = uname.
Hypothesis Huniq :
  ∀ id u, db_users s !! id = Some u → username u = uname → id = tid.
Hypothesis Hnonempty : uname ≠ ""%string.
Hypothesis Hother : uname ≠ username c.

Lemma request_reaches_check now1 now2 :
  post_friends_request now1 now2 (Verified cid) (Some uname) s
  = tryCatch "Error sending friend request"
      (match list_find (friendOf tid) (friends c) with
       | Some (_, existingFriend) =>
           match friend_status existingFriend with
           | accepted => send (reply 400 "Already friends")
           | pending => send (reply 400 "Friend request already sent")
           | blocked => mret tt
           end
       | None => mret tt
       end ;;
       User_save cid
         (set_friends (friends c ++ [mkFriend tid pending now1]) c) ;;
       User_save tid
         (set_friends (friends t ++ [mkFriend cid pending now2]) t) ;;
       mret (reply 200 "Friend request sent successfully")) s.
Proof.
  unfold post_friends_request. rewrite (auth_verified cid c) by done.
  destruct uname as [|ch rest] eqn:Hu; [done|]. rewrite <- Hu in *.
  simpl. rewrite (bool_decide_eq_false_2 _ Hother).
  step_unfold. simpl.
  rewrite (findOne_username_unique _ tid t) by done. simpl.
  by rewrite Hc.
Qed.

(** C8. The route looks at one entry only: the first entry for the
    recipient in the sender's friends list, the one [find] returns.
    When that first entry has status pending or accepted, the request
    is answered with status 400 and nothing is written, whatever
    entries follow it.  When the sender's list holds no entry for the
    recipient, or the first one has status blocked, the route answers
    200 and appends a pending entry for the recipient to the sender's
    list and a pending entry for the sender to the recipient's list,
    again whatever entries follow the first one. *)
Theorem friend_request_outcome now1 now2 :
  let r := post_friends_request now1 now2 (Verified cid) (Some uname) s in
  (∀ i f, list_find (friendOf tid) (friends c) = Some (i, f) →
          friend_status f = pending ∨ friend_status f = accepted →
          status r.1 = 400%nat ∧ r.2 = s)
  ∧ ((∀ i f, list_find (friendOf tid) (friends c) = Some (i, f) →
             friend_status f = blocked) →
     r = (reply 200 "Friend request sent successfully",
          with_users
            (<[tid := set_friends (friends t ++ [mkFriend cid pending now2]) t]>
               (<[cid := set_friends (friends c ++ [mkFriend tid pending now1]) c]>
                  (db_users s)))
            s)).
Proof.
  intros r. unfold r. rewrite request_reaches_check. split.
  - intros i f Hfind Hst. rewrite Hfind. step_unfold.
    destruct Hst as [-> | ->]; simpl; done.
  - intros Hblocked.
    destruct (list_find _ _) as [[i f]|] eqn:Hfind.
    + rewrite (Hblocked i f eq_refl). reflexivity.
    + reflexivity.
Qed.
End Request.

(** In the sample collections the user name picks out one document. *)
Ltac only_user :=
  let id := fresh "id" in
  let u := fresh "u" in
  let Hu := fresh "Hu" in
  let Hn := fresh "Hn" in
  intros id u Hu Hn; simpl in Hu;
  repeat (rewrite lookup_insert in Hu; case_decide; [by simplify_eq|]);
  by rewrite lookup_empty in Hu.

Lemma friend_request_outcome_witness :
  (status (post_friends_request 7 8 (Verified 1) (Some "bob"%string)
                                friends_pending).1 = 400%nat
   ∧ (post_friends_request 7 8 (Verified 1) (Some "bob"%string)
                           friends_pending).2 = friends_pending)
  ∧ post_friends_request 7 8 (Verified 5) (Some "dave"%string) strangers
    = (reply 200 "Friend request sent successfully",
       with_users
         (<[4%N := set_friends [mkFriend 5 pending 8] dave]>
            (<[5%N := set_friends [mkFriend 4 pending 7] erin]>
               (db_users strangers)))
         strangers).
Proof.
  split.
  - refine (proj1 (friend_request_outcome friends_pending 1 2 alice bob "bob"
                     eq_refl eq_refl eq_refl eq_refl _ _ _ 7 8)
              0%nat (mkFriend 2 pending 0) eq_refl (or_introl eq_refl)).
    + only_user.
    + discriminate.
    + discriminate.
  - refine (proj2 (friend_request_outcome strangers 5 4 erin dave "dave"
                     eq_refl eq_refl eq_refl eq_refl _ _ _ 7 8) _).
    + only_user.
    + discriminate.
    + discriminate.
    + intros i f Hfind. discriminate Hfind.
Defined.

(** An entry whose status is blocked does not stop a request: Carol
    holds a blocked entry for Dave, her request to Dave is answered
    with 200, and a pending entry is appended on both sides.  The
    pending entry now in her list does not stop a further request
    either, since [find] still returns the blocked entry before it:
    the second request is answered with 200 as well and appends a
    third entry to her list and a second one to Dave's. *)
Lemma friend_request_blocked_counterexample :
  let r := post_friends_request 7 8 (Verified 3) (Some "dave"%string)
                                friends_blocked in
  let r' := post_friends_request 9 10 (Verified 3) (Some "dave"%string)
                                 r.2 in
  friendStatus friends_blocked 3 4 = Some blocked
  ∧ status r.1 = 200%nat
  ∧ friends <$> db_users r.2 !! 3%N
    = Some [mkFriend 4 blocked 0; mkFriend 4 pending 7]
  ∧ friends <$> db_users r.2 !! 4%N = Some [mkFriend 3 pending 8]
  ∧ status r'.1 = 200%nat
  ∧ friends <$> db_users r'.2 !! 3%N
    = Some [mkFriend 4 blocked 0; mkFriend 4 pending 7; mkFriend 4 pending 9]
  ∧ friends <$> db_users r'.2 !! 4%N
    = Some [mkFriend 3 pending 8; mkFriend 3 pending 10].
Proof. vm_compute. repeat split. Qed.

(** ** Joining a group ([addMember], the join route) *)

Section Join.
Implicit Types (g : Group) (m : Member) (uid : ObjectId).

Lemma memberCount_push g m :
  member_isActive m = true →
  memberCount (set_members (members g ++ [m]) g) = S (memberCount g).
Proof.
  intros Hm. unfold memberCount. simpl.
  rewrite filter_app, length_app, filter_cons_True by done. simpl. lia.
Qed.

Lemma memberCount_reactivate g i m m' :
  members g !! i = Some m →
  member_isActive m = false → member_isActive m' = true →
  memberCount (set_members (<[i := m']> (members g)) g) = S (memberCount g).
Proof.
  intros Hi Hm Hm'. unfold memberCount. simpl.
  rewrite insert_take_drop by (by eapply lookup_lt_Some).
  rewrite <- (take_drop_middle (members g) i m Hi) at 3.
  rewrite !filter_app, !length_app.
  rewrite filter_cons_True by done.
  rewrite filter_cons_False by (rewrite Hm; discriminate).
  simpl. lia.
Qed.

(** [addMember] for a user with no active entry: one more active
    member, and the user is one. *)
Lemma addMember_joins now uid role g :
  list_find (activeMemberOf uid) (members g) = None →
  memberCount (addMember now uid role g) = S (memberCount g)
  ∧ is_Some (list_find (activeMemberOf uid)
                       (members (addMember now uid role g))).
Proof.
  intros Hnone. unfold addMember.
  destruct (list_find (fun m => member_userId m = uid) (members g))
    as [[i m]|] eqn:Hfind.
  - apply list_find_Some in Hfind as (Hi & Hu & _).
    destruct (member_isActive m) eqn:Hact.
    { apply list_find_None in Hnone. rewrite Forall_forall in Hnone.
      destruct (Hnone m); [by eapply list_elem_of_lookup_2|done]. }
    split; [by eapply memberCount_reactivate|].
    eapply (list_find_elem_of _ _
              (mkMember (member_userId m) (member_role m) now true));
      [|by split].
    simpl. eapply list_elem_of_lookup_2.
    apply list_lookup_insert_eq. by eapply lookup_lt_Some.
  - split; [by apply memberCount_push|].
    eapply (list_find_elem_of _ _ (mkMember uid role now true)); [|by split].
    simpl. set_solver.
Qed.

(** C6. A join request of a signed-in user for an existing group.
    If the group is private, the request is refused (403 when the
    group is active, 404 when it is not) and nothing is written.  If
    the group is active and not private and the user is not an active
    member: with exactly [maxMembers] active members the request is
    refused with status 400 and nothing is written; with
    [maxMembers - 1] the route answers 200, stores the group that
    [addMember] yields, in which the user is an active member and the
    active members number [maxMembers], and appends the group to the
    user's own list. *)
Theorem join_respects_capacity now1 now2 uid user gid g s :
  db_users s !! uid = Some user → user_isActive user = true →
  db_groups s !! gid = Some g →
  let r := post_groups_join now1 now2 (Verified uid) gid s in
  (privacy g = private →
     r = (reply (if group_isActive g then 403 else 404)
                (if group_isActive g
                 then "Cannot join private group without invitation"
                 else "Group not found"), s))
  ∧ (group_isActive g = true → privacy g ≠ private →
     list_find (activeMemberOf uid) (members g) = None →
     (Z.of_nat (memberCount g) = maxMembers g →
        r = (reply 400 "Group has reached maximum member limit", s))
     ∧ (Z.of_nat (memberCount g) = maxMembers g - 1 →
        let g' := addMember now1 uid member g in
        r = (reply 200 "Successfully joined group",
             mkState
               (<[uid := set_groups
                           (groups user ++ [mkGroupRef gid ug_member now2])
                           user]> (db_users s))
               (db_activities s)
               (<[gid := g']> (db_groups s))
               (emitted s))
        ∧ is_Some (list_find (activeMemberOf uid) (members g'))
        ∧ Z.of_nat (memberCount g') = maxMembers g)).
Proof.
  intros Hu Hact Hg r. unfold r, post_groups_join.
  rewrite (auth_verified uid user) by done.
  step_unfold. simpl. rewrite Hg. split.
  - intros Hpriv. destruct (group_isActive g); simpl; [|done].
    by rewrite Hpriv.
  - intros Hactive Hpub Hnone. rewrite Hactive. simpl.
    rewrite (bool_decide_eq_false_2 _ Hpub). simpl.
    rewrite Hnone. simpl. split.
    + intros Hfull.
      by rewrite (proj2 (Z.leb_le _ _)) by lia.
    + intros Hroom.
      rewrite (proj2 (Z.leb_gt _ _)) by lia. simpl. rewrite Hu. simpl.
      destruct (addMember_joins now1 uid member g Hnone) as [Hcount Hin].
      split_and!; [done|done|lia].
Qed.
End Join.

Lemma join_respects_capacity_witness :
  post_groups_join 7 8 (Verified 5) 12 clubs
  = (reply 403 "Cannot join private group without invitation", clubs)
  ∧ post_groups_join 7 8 (Verified 5) 11 clubs
    = (reply 400 "Group has reached maximum member limit", clubs)
  ∧ (post_groups_join 7 8 (Verified 5) 10 clubs).1
    = reply 200 "Successfully joined group"
  ∧ Z.of_nat (memberCount (addMember 7 5 member walkers)) = 2.
Proof.
  split_and!.
  - exact (proj1 (join_respects_capacity 7 8 5 erin 12 hideout clubs
                    eq_refl eq_refl eq_refl) eq_refl).
  - exact (proj1 (proj2 (join_respects_capacity 7 8 5 erin 11 walkers_full clubs
                           eq_refl eq_refl eq_refl)
                    eq_refl ltac:(discriminate) eq_refl) eq_refl).
  - destruct (proj2 (proj2 (join_respects_capacity 7 8 5 erin 10 walkers clubs
                              eq_refl eq_refl eq_refl)
                       eq_refl ltac:(discriminate) eq_refl) eq_refl)
      as (Hr & _ & _).
    by rewrite Hr.
  - exact (proj2 (proj2 (proj2 (proj2 (join_respects_capacity 7 8 5 erin 10
                    walkers clubs eq_refl eq_refl eq_refl)
                    eq_refl ltac:(discriminate) eq_refl) eq_refl))).
Defined.

(** ** Challenge progress ([updateChallengeProgress], the progress route) *)

Global Instance staysCompleted_refl : Reflexive staysCompleted.
Proof. by intros p. Qed.

Global Instance staysCompleted_trans : Transitive staysCompleted.
Proof. intros p q r [Hu1 H1] [Hu2 H2]. split; [congruence|auto]. Qed.

Global Instance challengeStaysCompleted_refl : Reflexive challengeStaysCompleted.
Proof. intros c. by split_and!. Qed.

Global Instance challengeStaysCompleted_trans : Transitive challengeStaysCompleted.
Proof.
  intros c d e (Hi1 & Ht1 & H1) (Hi2 & Ht2 & H2).
  split_and!; [congruence|congruence|by etrans].
Qed.

Global Instance groupStaysCompleted_refl : Reflexive groupStaysCompleted.
Proof. intros g. unfold groupStaysCompleted. reflexivity. Qed.

Global Instance groupStaysCompleted_trans : Transitive groupStaysCompleted.
Proof. intros g h k. unfold groupStaysCompleted. apply transitivity. Qed.

Section Progress.
Implicit Types (g : Group) (c : Challenge) (p : Participant).

(** An update at one index relates the list to itself when it
    relates the old to the new element. *)
Lemma Forall2_insert_self {A} (R : relation A) `{!Reflexive R}
    (l : list A) i x y :
  l !! i = Some x → R x y → Forall2 R l (<[i := y]> l).
Proof.
  intros Hi Hxy. rewrite <- (list_insert_id l i x Hi) at 1.
  apply Forall2_insert; [reflexivity|done].
Qed.

Lemma updateChallengeProgress_staysCompleted now cid uid newProgress g :
  groupStaysCompleted g (updateChallengeProgress now cid uid newProgress g).
Proof.
  unfold updateChallengeProgress.
  destruct (list_find _ (challenges g)) as [[ci c]|] eqn:Hc; [|reflexivity].
  destruct (list_find _ (participants c)) as [[pi p]|] eqn:Hp; [|reflexivity].
  apply list_find_Some in Hc as (Hci & _ & _).
  apply list_find_Some in Hp as (Hpi & _ & _).
  unfold groupStaysCompleted. simpl.
  eapply Forall2_insert_self; [apply _|exact Hci|].
  split_and!; [done|done|]. simpl.
  eapply Forall2_insert_self; [apply _|exact Hpi|].
  split; [done|]. simpl. intros ->. by destruct (reachesTarget _ _).
Qed.

(** What an update does to the participant it addresses. *)
Lemma updateChallengeProgress_found now cid uid newProgress g ci c pi p :
  list_find (fun c => challenge_id c = cid) (challenges g) = Some (ci, c) →
  list_find (fun p => participant_userId p = uid) (participants c)
  = Some (pi, p) →
  ∃ c', challenges (updateChallengeProgress now cid uid newProgress g) !! ci
        = Some c'
        ∧ participants c' !! pi
          = Some (mkParticipant uid newProgress now
                    (reachesTarget newProgress (target c)
                     || participant_isCompleted p)).
Proof.
  intros Hc Hp. unfold updateChallengeProgress. rewrite Hc, Hp.
  apply list_find_Some in Hc as (Hci & _ & _).
  apply list_find_Some in Hp as (Hpi & Hu & _).
  eexists. simpl. split.
  - apply list_lookup_insert_eq. by eapply lookup_lt_Some.
  - simpl. rewrite list_lookup_insert_eq by (by eapply lookup_lt_Some).
    rewrite Hu. by destruct (reachesTarget _ _).
Qed.

(** C9. Through every sequence of progress updates, each challenge
    keeps its participants, and a participant whose [isCompleted] is
    true keeps it true, whatever progress the updates set. *)
Theorem isCompleted_is_never_reset (updates : list ProgressUpdate) g :
  groupStaysCompleted g (foldl runProgressUpdate g updates).
Proof.
  revert g. induction updates as [|u updates IH]; intros g; [reflexivity|].
  simpl. etrans; [|apply IH].
  apply updateChallengeProgress_staysCompleted.
Qed.

(** An update that names no challenge of the group, or a user who is
    no participant of the challenge, changes nothing. *)
Lemma updateChallengeProgress_unknown now cid uid newProgress g :
  match list_find (fun c => challenge_id c = cid) (challenges g) with
  | Some (_, c) =>
      list_find (fun p => participant_userId p = uid) (participants c) = None
  | None => True
  end →
  updateChallengeProgress now cid uid newProgress g = g.
Proof.
  unfold updateChallengeProgress.
  destruct (list_find _ (challenges g)) as [[ci c]|]; [|done].
  by intros ->.
Qed.

(** The progress route for a signed-in user and an active group: the
    group that [updateChallengeProgress] yields is saved; then the
    socket server is read from the application settings, and the
    answer is 200 when there is one and 500 when there is none. *)
Lemma post_challenges_progress_saved req_app now uid user gid g cid
    newProgress s :
  db_users s !! uid = Some user → user_isActive user = true →
  db_groups s !! gid = Some g → group_isActive g = true →
  let saved :=
    <[gid := updateChallengeProgress now cid uid newProgress g]> (db_groups s) in
  post_challenges_progress req_app now (Verified uid) gid cid
                           (Some newProgress) s
  = match app_get_io req_app with
    | Some _ =>
        (reply 200 "Progress updated successfully",
         mkState (db_users s) (db_activities s) saved
                 (emitted s ++ [mkEvent gid cid uid newProgress]))
    | None =>
        (reply 500 "Error updating challenge progress",
         mkState (db_users s) (db_activities s) saved (emitted s))
    end.
Proof.
  intros Hu Hact Hg Hactive. unfold post_challenges_progress.
  rewrite (auth_verified uid user) by done.
  step_unfold. simpl. rewrite Hg, Hactive. simpl.
  by destruct (app_get_io req_app).
Qed.

Lemma save_unchanged gid g s :
  db_groups s !! gid = Some g →
  mkState (db_users s) (db_activities s) (<[gid := g]> (db_groups s))
          (emitted s) = s.
Proof. intros Hg. rewrite insert_id by done. apply state_eta. Qed.

(** With no challenge or no participant to update, the route writes
    the group back as it was; what it answers depends on the socket
    server alone. *)
Lemma post_challenges_progress_unknown req_app now uid user gid g cid
    newProgress s :
  db_users s !! uid = Some user → user_isActive user = true →
  db_groups s !! gid = Some g → group_isActive g = true →
  match list_find (fun c => challenge_id c = cid) (challenges g) with
  | Some (_, c) =>
      list_find (fun p => participant_userId p = uid) (participants c) = None
  | None => True
  end →
  post_challenges_progress req_app now (Verified uid) gid cid
                           (Some newProgress) s
  = match app_get_io req_app with
    | Some _ =>
        (reply 200 "Progress updated successfully",
         mkState (db_users s) (db_activities s) (db_groups s)
                 (emitted s ++ [mkEvent gid cid uid newProgress]))
    | None => (reply 500 "Error updating challenge progress", s)
    end.
Proof.
  intros Hu Hact Hg Hactive Hunknown.
  rewrite (post_challenges_progress_saved _ _ _ user _ g) by done.
  cbv zeta. rewrite updateChallengeProgress_unknown by done.
  rewrite (insert_id _ _ _ Hg).
  destruct (app_get_io req_app); [done|]. by rewrite state_eta.
Qed.
End Progress.

(** The participant of the sample challenge stays completed when the
    progress is set back from 7 to 2, below the target. *)
Example progress_set_back :
  challenges (updateChallengeProgress 9 20 4 2 stretchers)
  = [mkChallenge 20 "a week of walks" (number 7) [mkParticipant 4 2 9 true]
                 true].
Proof. reflexivity. Qed.

(** C10. Erin reports progress for a challenge id the group does not
    have, and for a challenge she has not joined.  In both cases
    [updateChallengeProgress] leaves the group as it is and the stored
    state does not change.  The route then reads [req.app.get('io')],
    which server.js never sets, so the request ends in the [catch]
    block with status 500, "Error updating challenge progress", and
    the success message of the handler's last statement is never sent;
    with a socket server registered the same requests are answered
    with 200. *)
Theorem progress_unknown_target_answers_500 :
  updateChallengeProgress 9 99 5 3 stretchers = stretchers
  ∧ updateChallengeProgress 9 20 5 3 stretchers = stretchers
  ∧ post_challenges_progress app 9 (Verified 5) 10 99 (Some 3) challenged
    = (reply 500 "Error updating challenge progress", challenged)
  ∧ post_challenges_progress app 9 (Verified 5) 10 20 (Some 3) challenged
    = (reply 500 "Error updating challenge progress", challenged)
  ∧ (post_challenges_progress (mkApp (Some socketIo)) 9 (Verified 5) 10 99
                              (Some 3) challenged).1
    = reply 200 "Progress updated successfully".
Proof.
  split_and!; [reflexivity|reflexivity| | |].
  - exact (post_challenges_progress_unknown app 9 5 erin 10 stretchers 99 3
             challenged eq_refl eq_refl eq_refl eq_refl I).
  - exact (post_challenges_progress_unknown app 9 5 erin 10 stretchers 20 3
             challenged eq_refl eq_refl eq_refl eq_refl eq_refl).
  - by rewrite (post_challenges_progress_unknown (mkApp (Some socketIo)) 9 5
                  erin 10 stretchers 99 3 challenged eq_refl eq_refl eq_refl
                  eq_refl I).
Qed.

(** ** The trending listing ([getTrendingActivities]) *)

Global Instance sortsBefore_total : Total sortsBefore.
Proof. intros x y. unfold sortsBefore. lia. Qed.

Global Instance sortsBefore_trans : Transitive sortsBefore.
Proof. intros x y z. unfold sortsBefore. lia. Qed.

Section Trending.
Context (limit : positive).
Context (users : gmap ObjectId User) (activities : gmap ObjectId Activity).

Lemma StronglySorted_lookup {A} (R : relation A) (l : list A) i j x y :
  StronglySorted R l → l !! i = Some x → l !! j = Some y → (i < j)%nat →
  R x y.
Proof.
  intros Hs. revert i j. induction Hs as [|z l Hs IH Hall]; intros i j Hi Hj Hij.
  - by rewrite lookup_nil in Hi.
  - destruct j as [|j]; [lia|]. destruct i as [|i]; simpl in *.
    + simplify_eq. rewrite Forall_forall in Hall.
      apply Hall. by eapply list_elem_of_lookup_2.
    + eapply (IH i j); [done|done|lia].
Qed.

Lemma trendingRanked_sorted :
  StronglySorted sortsBefore (trendingRanked activities).
Proof. apply StronglySorted_merge_sort; apply _. Qed.

Lemma trendingRanked_perm :
  trendingRanked activities ≡ₚ addFields <$> sharedActive activities.
Proof. apply merge_sort_Permutation. Qed.

(** The ranking holds the shared, active activities and no others. *)
Lemma elem_of_trendingRanked sc :
  sc ∈ trendingRanked activities
  ↔ ∃ id a, sc = addFields (id, a) ∧ activities !! id = Some a
            ∧ isShared a = true ∧ activity_isActive a = true.
Proof.
  rewrite trendingRanked_perm, list_elem_of_fmap. unfold sharedActive.
  split.
  - intros ([id a] & -> & Hin). apply list_elem_of_filter in Hin as [[??] Hin].
    apply elem_of_map_to_list in Hin. by exists id, a.
  - intros (id & a & -> & Ha & Hs & Hact). exists (id, a). split; [done|].
    apply list_elem_of_filter. split; [by split|].
    by apply elem_of_map_to_list.
Qed.

Lemma getTrendingActivities_sorted :
  StronglySorted rankedBefore (getTrendingActivities limit users activities).
Proof.
  unfold getTrendingActivities.
  apply (StronglySorted_fmap _ sortsBefore); [by intros x y|].
  apply (StronglySorted_app_1_l _ _ (drop (Pos.to_nat limit)
                                          (trendingRanked activities))).
  rewrite take_drop. apply trendingRanked_sorted.
Qed.

(** C7. The trending listing holds shared, active activities only;
    each carries [likeCount] and [commentCount], the sizes of its
    like and comment lists, and the score likeCount + 2 × commentCount;
    the listing is sorted by score, highest first, and among equal
    scores by [createdAt], most recent first, so that every entry
    with a score of 6 or more stands strictly before every entry with
    score 5; and a shared, active activity is missing from it only
    when the listing is cut at [limit] entries, each of which then
    ranks before the missing one. *)
Theorem trending_sorted_by_engagement :
  let listing := getTrendingActivities limit users activities in
  (∀ t, t ∈ listing →
     ∃ a, activities !! t_id t = Some a
          ∧ isShared a = true ∧ activity_isActive a = true
          ∧ t_likeCount t = likeCount a
          ∧ t_commentCount t = commentCount a
          ∧ engagementScore t = (likeCount a + 2 * commentCount a)%nat
          ∧ t_createdAt t = createdAt a)
  ∧ StronglySorted rankedBefore listing
  ∧ (∀ i j x y, listing !! i = Some x → listing !! j = Some y →
       (6 ≤ engagementScore x)%nat → engagementScore y = 5%nat →
       (i < j)%nat)
  ∧ (∀ id a, activities !! id = Some a →
       isShared a = true → activity_isActive a = true →
       lookupProject users (addFields (id, a)) ∈ listing
       ∨ (length listing = Pos.to_nat limit
          ∧ ∀ t, t ∈ listing →
              rankedBefore t (lookupProject users (addFields (id, a))))).
Proof.
  intros listing. split_and!.
  - intros t (sc & -> & Hin)%list_elem_of_fmap.
    apply elem_of_take in Hin as (k & Hk & _).
    apply list_elem_of_lookup_2, elem_of_trendingRanked in Hk
      as (id & a & -> & Ha & Hs & Hact).
    exists a. unfold likeCount, commentCount. simpl.
    split_and!; try done. lia.
  - apply getTrendingActivities_sorted.
  - intros i j x y Hi Hj Hx Hy.
    destruct (decide (i < j)%nat) as [|Hge]; [done|]. exfalso.
    destruct (decide (i = j)) as [->|Hne].
    + rewrite Hi in Hj. simplify_eq. lia.
    + assert (Hyx : rankedBefore y x).
      { eapply (StronglySorted_lookup _ listing j i);
          [apply getTrendingActivities_sorted|done|done|lia]. }
      unfold rankedBefore in Hyx. lia.
  - intros id a Ha Hs Hact.
    assert (Hin : addFields (id, a) ∈ trendingRanked activities).
    { apply elem_of_trendingRanked. by exists id, a. }
    rewrite <- (take_drop (Pos.to_nat limit) (trendingRanked activities)) in Hin.
    apply elem_of_app in Hin as [Hin|Hin].
    + left. unfold listing, getTrendingActivities.
      apply list_elem_of_fmap. by exists (addFields (id, a)).
    + right. split.
      * unfold listing, getTrendingActivities.
        rewrite length_fmap, length_take.
        destruct (decide (Pos.to_nat limit ≤ length (trendingRanked activities))%nat)
          as [|Hshort]; [lia|].
        rewrite drop_ge in Hin by lia. by apply elem_of_nil in Hin.
      * intros t (sc & -> & Hsc)%list_elem_of_fmap.
        change (sortsBefore sc (addFields (id, a))).
        eapply StronglySorted_app_1_elem_of; [|exact Hsc|exact Hin].
        rewrite take_drop. apply trendingRanked_sorted.
Qed.
End Trending.

(** The example of the specification: the activity of score 6 comes
    first although it is the oldest, and the three of score 5 follow,
    most recent first. *)
Example trending_feed :
  t_id <$> getTrendingActivities 10 ∅ feed = [44%N; 43%N; 42%N; 41%N]
  ∧ engagementScore <$> getTrendingActivities 10 ∅ feed = [6; 5; 5; 5]%nat
  ∧ t_id <$> getTrendingActivities 2 ∅ feed = [44%N; 43%N].
Proof. vm_compute. auto. Qed.

(** * Further properties *)

(** ** Streak counters, continued *)

Section StreakInvariants.
Implicit Types (u : User) (today : Date) (clock : list Date).

Lemma updateStreak_lastActivityDate today u :
  lastActivityDate (streakData (updateStreak today u))
  = match lastActivityDate (streakData u) with
    | None => Some today
    | Some lastActivity =>
        if 1 <=? daysDiff today lastActivity then Some today
        else Some lastActivity
    end.
Proof.
  unfold updateStreak. destruct u as [? ? [c l [d|] t] ? ? ?]; simpl;
    repeat case_match; try reflexivity; lia.
Qed.

Lemma streakInOrder_first today u n :
  lastActivityDate (streakData u) = None →
  0 <= longestStreak (streakData u) <= n →
  totalActivitiesCompleted (streakData u) = n →
  streakInOrder (streakData (updateStreak today u)) (n + 1).
Proof.
  intros Hnone Hl Ht. unfold streakInOrder.
  rewrite updateStreak_longest, updateStreak_current, updateStreak_total,
    updateStreak_lastActivityDate, Hnone.
  split_and!; [lia|lia|lia|lia|by eexists].
Qed.

Lemma streakInOrder_step today u n :
  streakInOrder (streakData u) n →
  streakInOrder (streakData (updateStreak today u)) (n + 1).
Proof.
  intros (Hc & Hcl & Hlt & Ht & [d Hd]). unfold streakInOrder.
  rewrite updateStreak_longest, updateStreak_current, updateStreak_total,
    updateStreak_lastActivityDate, Hd.
  split_and!; repeat case_match; try lia; by eexists.
Qed.

Lemma streakInOrder_completions clock u n :
  streakInOrder (streakData u) n →
  streakInOrder (streakData (completions clock u)) (n + Z.of_nat (length clock)).
Proof.
  revert u n. induction clock as [|today clock IH]; intros u n Hinv.
  - simpl. by rewrite Z.add_0_r.
  - change (completions (today :: clock) u)
      with (completions clock (updateStreak today u)).
    replace (n + Z.of_nat (length (today :: clock)))
      with ((n + 1) + Z.of_nat (length clock)) by (simpl; lia).
    apply IH. by apply streakInOrder_step.
Qed.

(** X1. For a user who starts from the schema defaults (no last
    activity, all counters 0), after any non-empty sequence of
    completions, whatever the clock readings:
    1 <= currentStreak <= longestStreak <= totalActivitiesCompleted,
    the total is the number of completions, and [lastActivityDate] is
    set. *)
Theorem streak_of_new_user today clock u :
  streakInOrder
    (streakData (completions (today :: clock) (set_streakData newStreakData u)))
    (Z.of_nat (length (today :: clock))).
Proof.
  change (completions (today :: clock) (set_streakData newStreakData u))
    with (completions clock (updateStreak today (set_streakData newStreakData u))).
  replace (Z.of_nat (length (today :: clock)))
    with ((0 + 1) + Z.of_nat (length clock)) by (simpl; lia).
  apply streakInOrder_completions, streakInOrder_first; simpl; [done|lia|done].
Qed.

(** X2. After every call of [updateStreak], whatever the streak data
    were before: [currentStreak] does not exceed [longestStreak];
    [lastActivityDate] is set; and it has either stayed where it was or
    moved forward by at least 24 hours, so it never moves back even
    when the clock does. *)
Theorem updateStreak_keeps_order today u :
  let sd' := streakData (updateStreak today u) in
  currentStreak sd' <= longestStreak sd'
  ∧ ∃ d', lastActivityDate sd' = Some d'
          ∧ ∀ d, lastActivityDate (streakData u) = Some d →
                 d' = d ∨ d + MS_PER_DAY <= d'.
Proof.
  intros sd'. unfold sd'. split.
  - rewrite updateStreak_longest. lia.
  - rewrite updateStreak_lastActivityDate.
    destruct (lastActivityDate (streakData u)) as [d|]; [|by eexists].
    destruct (Z.leb_spec 1 (daysDiff today d)) as [Hday|Hday].
    + exists today. split; [done|]. intros ? [= <-]. right.
      unfold daysDiff in Hday. change MS_PER_DAY with 86400000 in *.
      Z.to_euclidean_division_equations. lia.
    + exists d. split; [done|]. intros ? [= <-]. by left.
Qed.
End StreakInvariants.

(** ** The [auth] middleware *)

Lemma auth_rejects token next s :
  ¬ authenticated token s → unauthorized (auth token next s) s.
Proof.
  intros Hno. unfold unauthorized, auth. destruct token as [| | |uid]; try done.
  destruct (db_users s !! uid) as [user|] eqn:Hu; [|done].
  destruct (user_isActive user) eqn:Hact; [|done].
  destruct Hno. by exists uid, user.
Qed.

(** X3. A request that carries no token, an invalid or expired one, or
    the token of a user who is missing or deactivated, is answered with
    status 401 by every handler, whatever its parameters and body, and
    nothing is written. *)
Theorem unauthenticated_requests_write_nothing token s :
  ¬ authenticated token s →
  (∀ now today id body,
     unauthorized (post_activities_complete now today token id body s) s)
  ∧ (∀ now id, unauthorized (post_activities_like now token id s) s)
  ∧ (∀ now id body,
       unauthorized (post_activities_comment now token id body s) s)
  ∧ (∀ id, unauthorized (delete_activities token id s) s)
  ∧ (∀ now1 now2 body,
       unauthorized (post_friends_request now1 now2 token body s) s)
  ∧ (∀ body, unauthorized (post_friends_accept token body s) s)
  ∧ (∀ userId, unauthorized (delete_friends token userId s) s)
  ∧ (∀ now1 now2 gid, unauthorized (post_groups_join now1 now2 token gid s) s)
  ∧ (∀ newId gid body,
       unauthorized (post_groups_challenges newId token gid body s) s)
  ∧ (∀ now gid cid, unauthorized (post_challenges_join now token gid cid s) s)
  ∧ (∀ req_app now gid cid body,
       unauthorized (post_challenges_progress req_app now token gid cid body s) s).
Proof.
  intros Hno. split_and!; intros; by apply auth_rejects.
Qed.

Lemma unauthenticated_requests_write_nothing_witness :
  unauthorized (post_groups_join 7 8 ExpiredToken 10 clubs) clubs
  ∧ unauthorized (delete_friends (Verified 9) 4 clubs) clubs.
Proof.
  split.
  - refine (proj1 (proj2 (proj2 (proj2 (proj2 (proj2 (proj2 (proj2
      (unauthenticated_requests_write_nothing ExpiredToken clubs _))))))))
      7 8 10%N).
    intros (uid & user & Htoken & _). discriminate Htoken.
  - refine (proj1 (proj2 (proj2 (proj2 (proj2 (proj2 (proj2
      (unauthenticated_requests_write_nothing (Verified 9) clubs _)))))))
      4%N).
    intros (uid & user & [= <-] & Hu & _). discriminate Hu.
Defined.

(** ** The activity routes, continued *)

Lemma validCompletionData_rating cd r :
  rating cd = Some r → r < 1 ∨ 5 < r → validCompletionData cd = false.
Proof.
  intros Hr Hout. unfold validCompletionData. rewrite Hr. simpl.
  destruct (Z.leb_spec 1 r), (Z.leb_spec r 5); simpl; try reflexivity; lia.
Qed.

Lemma filter_not_liked uid (l : list Like) :
  uid ∉ like_userId <$> l →
  filter (fun like => ¬ likedBy uid like) l = l.
Proof.
  induction l as [|x l IH]; [done|]. rewrite fmap_cons, not_elem_of_cons.
  intros [Hx Hl]. rewrite filter_cons_True by (unfold likedBy; congruence).
  by rewrite IH.
Qed.

(** The like route on an active activity, in one equation. *)
Lemma post_activities_like_eq now uid user id a s :
  db_users s !! uid = Some user → user_isActive user = true →
  db_activities s !! id = Some a → activity_isActive a = true →
  post_activities_like now (Verified uid) id s
  = match list_find (likedBy uid) (likes a) with
    | Some _ =>
        (mkResponse 200 "Activity unliked"
           (LikePayload (length (likes (removeLike uid a))) false),
         mkState (db_users s) (<[id := removeLike uid a]> (db_activities s))
                 (db_groups s) (emitted s))
    | None =>
        (mkResponse 200 "Activity liked"
           (LikePayload (length (likes (addLike now uid a))) true),
         mkState (db_users s) (<[id := addLike now uid a]> (db_activities s))
                 (db_groups s) (emitted s))
    end.
Proof.
  intros Hu Hact Ha Hactive. unfold post_activities_like.
  rewrite (auth_verified uid user) by done.
  step_unfold. simpl. rewrite Ha, Hactive.
  by destruct (list_find (likedBy uid) (likes a)) as [[k like]|].
Qed.

Section ActivityRoutes.
Context (s : State) (uid : ObjectId) (user : User).
Hypothesis Hu : db_users s !! uid = Some user.
Hypothesis Hact : user_isActive user = true.

(** X4. An activity that belongs to another user, that was deleted, or
    that does not exist cannot be completed or deleted: both routes
    answer 404, "Activity not found", and write nothing. *)
Theorem foreign_activity_not_found id :
  (∀ a, db_activities s !! id = Some a →
        activity_userId a ≠ uid ∨ activity_isActive a = false) →
  (∀ now today body,
     post_activities_complete now today (Verified uid) id body s
     = (reply 404 "Activity not found", s))
  ∧ delete_activities (Verified uid) id s
    = (reply 404 "Activity not found", s).
Proof.
  intros Hhidden.
  assert (Hfilter :
    match db_activities s !! id with
    | Some a => if (activity_userId a =? uid)%N && activity_isActive a
                then Some a else None
    | None => None
    end = None).
  { destruct (db_activities s !! id) as [a|] eqn:Ha; [|done].
    destruct (Hhidden a eq_refl) as [Hother | Hdeleted].
    - by rewrite (proj2 (N.eqb_neq _ _) Hother).
    - by rewrite Hdeleted, andb_false_r. }
  split; [intros now today body|].
  - unfold post_activities_complete. rewrite (auth_verified uid user) by done.
    step_unfold. simpl. by rewrite Hfilter.
  - unfold delete_activities. rewrite (auth_verified uid user) by done.
    step_unfold. simpl. by rewrite Hfilter.
Qed.

(** X5. The first completion of the owner's active activity, with
    values that pass validation, is answered with 200; the activity is
    stored as completed at the clock reading with the submitted
    rating, the user's streak data are stored as [updateStreak] leaves
    them and returned in the answer, with one more completed activity;
    and every further complete request for that activity is refused
    with 400 and writes nothing. *)
Theorem complete_once now today id body a :
  db_activities s !! id = Some a →
  activity_userId a = uid → activity_isActive a = true →
  isCompleted (completionData a) = false →
  validCompletionData
    (mkCompletionData true (Some now) (body_rating body) (body_feedback body)
       (mkMoodPair (body_moodBefore body) (body_moodAfter body))
       (body_notes body)) = true →
  let r := post_activities_complete now today (Verified uid) id body s in
  status r.1 = 200%nat
  ∧ (∃ a', db_activities r.2 !! id = Some a'
           ∧ payload r.1 = CompletePayload a' (streakData (updateStreak today user))
           ∧ isCompleted (completionData a') = true
           ∧ completedAt (completionData a') = Some now
           ∧ rating (completionData a') = body_rating body
           ∧ likes a' = likes a ∧ comments a' = comments a)
  ∧ db_users r.2 !! uid = Some (updateStreak today user)
  ∧ totalActivitiesCompleted (streakData (updateStreak today user))
    = totalActivitiesCompleted (streakData user) + 1
  ∧ (∀ now' today' body',
       post_activities_complete now' today' (Verified uid) id body' r.2
       = (reply 400 "Activity already completed", r.2)).
Proof.
  intros Ha Hown Hactive Hnew Hvalid r. unfold r.
  rewrite (complete_first now today uid user id body s a) by done.
  cbn [fst snd].
  split_and!; [done| |apply lookup_insert_eq|apply updateStreak_total|].
  - eexists. split; [apply lookup_insert_eq|]. by split_and!.
  - intros now' today' body'.
    eapply complete_rejects_completed; cbn [db_users db_activities];
      [apply lookup_insert_eq|done|apply lookup_insert_eq|done|done|done].
Qed.

(** X6. A complete request whose rating lies outside 1..5 fails
    validation when the activity is saved: the answer is 500, "Error
    completing activity", the activity is not marked completed and the
    streak is not updated. *)
Theorem complete_invalid_rating now today id body a r :
  db_activities s !! id = Some a →
  activity_userId a = uid → activity_isActive a = true →
  isCompleted (completionData a) = false →
  body_rating body = Some r → r < 1 ∨ 5 < r →
  post_activities_complete now today (Verified uid) id body s
  = (reply 500 "Error completing activity", s).
Proof.
  intros Ha Hown Hactive Hnew Hr Hout.
  assert (Hinvalid :
    validCompletionData
      (completionData
         (markCompleted now (body_rating body) (body_feedback body)
            (body_moodBefore body) (body_moodAfter body) (body_notes body) a))
    = false).
  { by apply (validCompletionData_rating _ r). }
  unfold post_activities_complete. rewrite (auth_verified uid user) by done.
  step_unfold. simpl. rewrite Ha, Hown, N.eqb_refl, Hactive. simpl.
  rewrite Hnew. unfold markCompleted in *. simpl in *. by rewrite Hinvalid.
Qed.

(** X7. The answer of the like route reports the stored state: its
    [likeCount] is the length of the saved like list, and its
    [isLiked] is true exactly when the saved list holds an entry of the
    user. *)
Theorem like_answer_matches_store now id a :
  db_activities s !! id = Some a → activity_isActive a = true →
  let r := post_activities_like now (Verified uid) id s in
  ∃ a' isLiked,
    db_activities r.2 !! id = Some a'
    ∧ status r.1 = 200%nat
    ∧ payload r.1 = LikePayload (length (likes a')) isLiked
    ∧ (isLiked = true ↔ uid ∈ likers a').
Proof.
  intros Ha Hactive r. unfold r, post_activities_like.
  rewrite (auth_verified uid user) by done.
  step_unfold. simpl. rewrite Ha, Hactive.
  destruct (list_find (likedBy uid) (likes a)) as [[k like]|] eqn:Hfind.
  - exists (removeLike uid a), false. simpl.
    split_and!; [apply lookup_insert_eq|done|done|].
    split; [done|]. unfold likers, removeLike. simpl.
    intros (x & Hx & Hin)%list_elem_of_fmap.
    apply list_elem_of_filter in Hin as [Hnot _]. by destruct Hnot.
  - exists (addLike now uid a), true. simpl.
    split_and!; [apply lookup_insert_eq|done|done|].
    split; [intros _; apply addLike_likers|done].
Qed.

(** X8. Liking and then unliking an activity the user had not liked:
    the answers are "Activity liked" and "Activity unliked"; between
    the two requests the user's like is the last entry of the like
    list; after them the like list of the activity is the one from
    before the first request, and its comments, completion data,
    sharing flag, owner and active flag are as they were.  No other
    activity is touched, and neither request writes a user or a group
    or emits an event.  (Both requests save the activity, so what
    Mongoose keeps by itself on a save, [updatedAt] and the version
    key, is not as before; the statement is about the paths named.) *)
Theorem like_then_unlike now now' id a :
  db_activities s !! id = Some a → activity_isActive a = true →
  uid ∉ likers a →
  let r1 := post_activities_like now (Verified uid) id s in
  let r2 := post_activities_like now' (Verified uid) id r1.2 in
  message r1.1 = "Activity liked"%string
  ∧ message r2.1 = "Activity unliked"%string
  ∧ (likes <$> db_activities r1.2 !! id) = Some (likes a ++ [mkLike uid now])
  ∧ (∃ a2, db_activities r2.2 !! id = Some a2
           ∧ likes a2 = likes a
           ∧ comments a2 = comments a
           ∧ completionData a2 = completionData a
           ∧ isShared a2 = isShared a
           ∧ activity_userId a2 = activity_userId a
           ∧ activity_isActive a2 = true)
  ∧ (∀ id', id' ≠ id → db_activities r2.2 !! id' = db_activities s !! id')
  ∧ db_users r2.2 = db_users s
  ∧ db_groups r2.2 = db_groups s
  ∧ emitted r2.2 = emitted s.
Proof.
  intros Ha Hactive Hnew r1 r2.
  assert (Hliked : (likes <$> db_activities r1.2 !! id)
                   = Some (likes a ++ [mkLike uid now])).
  { unfold r1. apply find_like_None in Hnew as Hfind.
    rewrite (post_activities_like_eq now uid user id a s) by done.
    rewrite Hfind. cbn [fst snd db_activities].
    rewrite lookup_insert_eq. unfold addLike. by rewrite Hfind. }
  cut (message r1.1 = "Activity liked"%string
       ∧ message r2.1 = "Activity unliked"%string ∧ r2.2 = s).
  { intros (Hm1 & Hm2 & ->). split_and!; [done|done|done| |done..].
    exists a. by rewrite Hactive. }
  clear Hliked. unfold r2, r1.
  apply find_like_None in Hnew as Hfind.
  rewrite (post_activities_like_eq now uid user id a s) by done.
  rewrite Hfind. cbn [fst snd].
  assert (Hactive' : activity_isActive (addLike now uid a) = true).
  { unfold addLike. by rewrite Hfind. }
  rewrite (post_activities_like_eq now' uid user id (addLike now uid a));
    [|done|done|apply lookup_insert_eq|done].
  destruct (list_find (likedBy uid) (likes (addLike now uid a)))
    as [[k like]|] eqn:Hfind'.
  2: { apply find_like_None in Hfind'. destruct Hfind'. apply addLike_likers. }
  cbn [fst snd message db_users db_activities db_groups emitted].
  split_and!; [done|done|].
  assert (Hback : removeLike uid (addLike now uid a) = a).
  { unfold removeLike, addLike. rewrite Hfind. simpl.
    rewrite filter_app, filter_not_liked by done.
    rewrite filter_cons_False by (unfold likedBy; simpl; auto).
    rewrite filter_nil, app_nil_r. by destruct a. }
  rewrite Hback, insert_insert_eq, insert_id by done. apply state_eta.
Qed.
End ActivityRoutes.

Lemma foreign_activity_not_found_witness :
  post_activities_complete 9 9 (Verified 5) 31
    (mkCompleteBody (Some 5) None None None None) studio
  = (reply 404 "Activity not found", studio)
  ∧ delete_activities (Verified 5) 31 studio
    = (reply 404 "Activity not found", studio).
Proof.
  assert (Hforeign : ∀ a, db_activities studio !! 31%N = Some a →
                          activity_userId a ≠ 5%N ∨ activity_isActive a = false).
  { intros a Ha. vm_compute in Ha. injection Ha as <-. left. discriminate. }
  destruct (foreign_activity_not_found studio 5 erin eq_refl eq_refl 31 Hforeign)
    as [Hcomplete Hdelete].
  split; [apply Hcomplete | exact Hdelete].
Defined.

Lemma complete_once_witness :
  status (post_activities_complete 9 9 (Verified 4) 31
            (mkCompleteBody (Some 5) None (Some "sad"%string)
                            (Some "calm"%string) None) studio).1 = 200%nat.
Proof.
  exact (proj1 (complete_once studio 4 dave eq_refl eq_refl 9 9 31
                  (mkCompleteBody (Some 5) None (Some "sad"%string)
                                  (Some "calm"%string) None)
                  evening_stretch eq_refl eq_refl eq_refl eq_refl eq_refl)).
Defined.

Lemma complete_invalid_rating_witness :
  post_activities_complete 9 9 (Verified 4) 31
    (mkCompleteBody (Some 6) None None None None) studio
  = (reply 500 "Error completing activity", studio).
Proof.
  apply (complete_invalid_rating studio 4 dave eq_refl eq_refl 9 9 31
           (mkCompleteBody (Some 6) None None None None) evening_stretch 6
           eq_refl eq_refl eq_refl eq_refl eq_refl).
  right. lia.
Defined.

Lemma like_answer_matches_store_witness :
  ∃ a' isLiked,
    db_activities (post_activities_like 9 (Verified 5) 31 studio).2 !! 31%N
    = Some a'
    ∧ status (post_activities_like 9 (Verified 5) 31 studio).1 = 200%nat
    ∧ payload (post_activities_like 9 (Verified 5) 31 studio).1
      = LikePayload (length (likes a')) isLiked
    ∧ (isLiked = true ↔ 5%N ∈ likers a').
Proof.
  exact (like_answer_matches_store studio 5 erin eq_refl eq_refl 9 31
           evening_stretch eq_refl eq_refl).
Defined.

Lemma like_then_unlike_witness :
  message (post_activities_like 9 (Verified 4) 31 studio).1
  = "Activity liked"%string
  ∧ message (post_activities_like 10 (Verified 4) 31
               (post_activities_like 9 (Verified 4) 31 studio).2).1
    = "Activity unliked"%string
  ∧ (likes <$> db_activities (post_activities_like 9 (Verified 4) 31 studio).2
                 !! 31%N)
    = Some (likes evening_stretch ++ [mkLike 4 9]).
Proof.
  refine (let H := like_then_unlike studio 4 dave eq_refl eq_refl 9 10 31
                     evening_stretch eq_refl eq_refl _ in
          conj (proj1 H) (conj (proj1 (proj2 H)) (proj1 (proj2 (proj2 H))))).
  unfold likers. simpl. intros Hin. apply list_elem_of_singleton in Hin.
  discriminate Hin.
Defined.

(** ** Deleting and commenting *)

Lemma trimStart_blank text : blank text → trimStart text = ""%string.
Proof.
  unfold blank. induction text as [|c text IH]; [done|]. simpl.
  intros [Hc Htext]%Forall_cons. rewrite Hc. by apply IH.
Qed.

(** The comment route past its check of the content. *)
Lemma post_activities_comment_eq now uid user id text s :
  db_users s !! uid = Some user → user_isActive user = true →
  trim text ≠ ""%string →
  post_activities_comment now (Verified uid) id (Some text) s
  = match db_activities s !! id with
    | Some a =>
        if activity_isActive a then
          if (String.length (trim text) <=? 300)%nat then
            (reply 200 "Comment added successfully",
             mkState (db_users s)
                     (<[id := addComment now uid (trim text) a]> (db_activities s))
                     (db_groups s) (emitted s))
          else (reply 500 "Error adding comment", s)
        else (reply 404 "Activity not found", s)
    | None => (reply 404 "Activity not found", s)
    end.
Proof.
  intros Hu Hact Htext. unfold post_activities_comment.
  rewrite (auth_verified uid user) by done.
  remember (trim text) as trimmed eqn:Htrim.
  destruct text as [|c rest]; [by subst|].
  destruct trimmed as [|c' t']; [done|]. clear Htrim.
  step_unfold. simpl.
  destruct (db_activities s !! id) as [a|]; [|done].
  destruct (activity_isActive a); [|done].
  by destruct (String.length t' <=? 299)%nat.
Qed.

Section DeleteAndComment.
Context (s : State) (uid : ObjectId) (user : User).
Hypothesis Hu : db_users s !! uid = Some user.
Hypothesis Hact : user_isActive user = true.

(** X9. Deleting is a soft delete.  For the owner's active activity the
    route answers 200, "Activity deleted successfully", and stores the
    activity with [isActive] false and its owner, completion data,
    sharing flag, likes and comments as they were; no other activity,
    no user and no group is written, and no event is emitted.  From
    then on the activity is gone for the routes, whoever asks: for
    every signed-in user, the owner or another, complete, like and
    delete answer 404, "Activity not found", a comment is never
    accepted, and none of these requests writes; the trending listing
    does not show the activity.  (What Mongoose keeps by itself on a
    save, [updatedAt] and the version key, is no part of the
    statement.) *)
Theorem delete_is_soft id a :
  db_activities s !! id = Some a →
  activity_userId a = uid → activity_isActive a = true →
  let r := delete_activities (Verified uid) id s in
  r.1 = reply 200 "Activity deleted successfully"
  ∧ (∃ a', db_activities r.2 !! id = Some a'
           ∧ activity_isActive a' = false
           ∧ activity_userId a' = uid
           ∧ completionData a' = completionData a
           ∧ isShared a' = isShared a
           ∧ likes a' = likes a
           ∧ comments a' = comments a)
  ∧ (∀ id', id' ≠ id → db_activities r.2 !! id' = db_activities s !! id')
  ∧ db_users r.2 = db_users s
  ∧ db_groups r.2 = db_groups s
  ∧ emitted r.2 = emitted s
  ∧ (∀ uid' user', db_users s !! uid' = Some user' →
                   user_isActive user' = true →
       (∀ now today body,
          post_activities_complete now today (Verified uid') id body r.2
          = (reply 404 "Activity not found", r.2))
       ∧ (∀ now, post_activities_like now (Verified uid') id r.2
                 = (reply 404 "Activity not found", r.2))
       ∧ delete_activities (Verified uid') id r.2
         = (reply 404 "Activity not found", r.2)
       ∧ (∀ now body,
            status (post_activities_comment now (Verified uid') id body r.2).1
            ≠ 200%nat
            ∧ (post_activities_comment now (Verified uid') id body r.2).2
              = r.2))
  ∧ (∀ limit,
       id ∉ t_id <$> getTrendingActivities limit (db_users r.2)
                                            (db_activities r.2)).
Proof.
  intros Ha Hown Hactive r.
  assert (Hr : r = (reply 200 "Activity deleted successfully",
                    mkState (db_users s)
                      (<[id := set_activity_isActive false a]> (db_activities s))
                      (db_groups s) (emitted s))).
  { unfold r, delete_activities. rewrite (auth_verified uid user) by done.
    step_unfold. simpl. by rewrite Ha, Hown, N.eqb_refl, Hactive. }
  rewrite Hr. cbn [fst snd]. split; [done|].
  set (s' := mkState _ _ _ _).
  assert (Ha' : db_activities s' !! id = Some (set_activity_isActive false a))
    by apply lookup_insert_eq.
  split_and!; [|..|].
  - exists (set_activity_isActive false a). by rewrite Ha'.
  - intros id' Hid. unfold s'. simpl. by rewrite lookup_insert_ne.
  - done.
  - done.
  - done.
  - intros uid' user' Hu' Hact'.
    assert (Hu'' : db_users s' !! uid' = Some user') by done.
    split_and!.
    + intros now today body. unfold post_activities_complete.
      rewrite (auth_verified uid' user') by done.
      step_unfold. cbn [fst snd]. rewrite Ha'.
      cbn [set_activity_isActive activity_isActive].
      by rewrite andb_false_r.
    + intros now. unfold post_activities_like.
      rewrite (auth_verified uid' user') by done.
      step_unfold. cbn [fst snd]. by rewrite Ha'.
    + unfold delete_activities. rewrite (auth_verified uid' user') by done.
      step_unfold. cbn [fst snd]. rewrite Ha'.
      cbn [set_activity_isActive activity_isActive].
      by rewrite andb_false_r.
    + intros now body.
      destruct body as [text|].
      2: { unfold post_activities_comment.
           rewrite (auth_verified uid' user') by done. done. }
      destruct (decide (trim text = ""%string)) as [Hblank|Hfull].
      * unfold post_activities_comment.
        rewrite (auth_verified uid' user') by done.
        destruct text as [|c text]; [done|]. step_unfold. cbn [fst snd].
        by rewrite Hblank.
      * rewrite (post_activities_comment_eq now uid' user' id text s') by done.
        by rewrite Ha'.
  - intros limit (t & Hid & Hin)%list_elem_of_fmap.
    unfold getTrendingActivities in Hin.
    apply list_elem_of_fmap in Hin as (sc & -> & Hsc).
    apply elem_of_take in Hsc as (k & Hk & _).
    apply list_elem_of_lookup_2, elem_of_trendingRanked in Hk
      as (id' & a' & -> & Hlook & _ & Hactive').
    simpl in Hid. subst id'. rewrite Ha' in Hlook.
    injection Hlook as <-. discriminate Hactive'.
Qed.

(** X10. A comment whose content is missing or consists of white space
    only is refused with 400, "Comment content is required", whatever
    the activity id, and nothing is written. *)
Theorem blank_comment_refused now id body :
  (∀ text, body = Some text → blank text) →
  post_activities_comment now (Verified uid) id body s
  = (reply 400 "Comment content is required", s).
Proof.
  intros Hblank. unfold post_activities_comment.
  rewrite (auth_verified uid user) by done.
  destruct body as [[|c text]|]; [done| |done].
  specialize (Hblank _ eq_refl).
  unfold trim. rewrite (trimStart_blank _ Hblank). by step_unfold.
Qed.

(** X11. A comment with content of at most 300 code units after
    trimming, on any active activity, the user's own or not, is
    answered with 200; the stored activity has exactly one more
    comment, the trimmed content by this user at the clock reading,
    appended after the others; likes and completion data are as they
    were, and the engagement score of the activity is 2 higher. *)
Theorem comment_is_appended now id text a :
  db_activities s !! id = Some a → activity_isActive a = true →
  trim text ≠ ""%string → (String.length (trim text) ≤ 300)%nat →
  let r := post_activities_comment now (Verified uid) id (Some text) s in
  status r.1 = 200%nat
  ∧ ∃ a', db_activities r.2 !! id = Some a'
          ∧ comments a' = comments a ++ [mkComment uid (trim text) now]
          ∧ likes a' = likes a
          ∧ completionData a' = completionData a
          ∧ scored_engagementScore (addFields (id, a'))
            = (scored_engagementScore (addFields (id, a)) + 2)%nat.
Proof.
  intros Ha Hactive Htext Hlen r. unfold r.
  rewrite (post_activities_comment_eq now uid user id text s) by done.
  rewrite Ha, Hactive, (proj2 (Nat.leb_le _ _) Hlen). cbn [fst snd].
  split; [done|]. eexists. split; [apply lookup_insert_eq|].
  split_and!; [done|done|done|]. simpl. rewrite length_app. simpl. lia.
Qed.

(** X12. A comment that is longer than 300 code units after trimming
    fails validation when the activity is saved: the answer is 500,
    "Error adding comment", and nothing is written. *)
Theorem long_comment_fails now id text a :
  db_activities s !! id = Some a → activity_isActive a = true →
  (300 < String.length (trim text))%nat →
  post_activities_comment now (Verified uid) id (Some text) s
  = (reply 500 "Error adding comment", s).
Proof.
  intros Ha Hactive Hlen.
  rewrite (post_activities_comment_eq now uid user id text s); [|done|done|].
  - by rewrite Ha, Hactive, (proj2 (Nat.leb_gt _ _) Hlen).
  - intros Hempty. rewrite Hempty in Hlen. simpl in Hlen. lia.
Qed.
End DeleteAndComment.

Lemma delete_is_soft_witness :
  (delete_activities (Verified 4) 31 studio).1
  = reply 200 "Activity deleted successfully"
  ∧ (∃ a', db_activities (delete_activities (Verified 4) 31 studio).2 !! 31%N
           = Some a'
           ∧ activity_isActive a' = false
           ∧ activity_userId a' = 4%N
           ∧ completionData a' = completionData evening_stretch
           ∧ isShared a' = isShared evening_stretch
           ∧ likes a' = likes evening_stretch
           ∧ comments a' = comments evening_stretch).
Proof.
  refine (let H := delete_is_soft studio 4 dave eq_refl eq_refl 31
                     evening_stretch eq_refl eq_refl eq_refl in
          conj (proj1 H) (proj1 (proj2 H))).
Defined.

(** After Dave has deleted his activity, Erin's like of it is answered
    with 404 and writes nothing. *)
Example like_after_delete :
  let s' := (delete_activities (Verified 4) 31 studio).2 in
  post_activities_like 9 (Verified 5) 31 s'
  = (reply 404 "Activity not found", s').
Proof. reflexivity. Qed.

Lemma blank_comment_refused_witness :
  post_activities_comment 9 (Verified 5) 31 (Some "   "%string) studio
  = (reply 400 "Comment content is required", studio).
Proof.
  apply (blank_comment_refused studio 5 erin eq_refl eq_refl).
  intros text [= <-]. unfold blank. simpl. by repeat constructor.
Defined.

Lemma comment_is_appended_witness :
  status (post_activities_comment 9 (Verified 5) 31 (Some "  well done "%string)
                                  studio).1 = 200%nat.
Proof.
  refine (proj1 (comment_is_appended studio 5 erin eq_refl eq_refl 9 31
                   "  well done " evening_stretch eq_refl eq_refl _ _)).
  - discriminate.
  - vm_compute. lia.
Defined.

Lemma long_comment_fails_witness :
  post_activities_comment 9 (Verified 5) 31 (Some long_text) studio
  = (reply 500 "Error adding comment", studio).
Proof.
  apply (long_comment_fails studio 5 erin eq_refl eq_refl 9 31 long_text
           evening_stretch eq_refl eq_refl).
  vm_compute. lia.
Defined.

(** ** The trending listing, continued *)

Section TrendingBounds.
Context (limit : positive).
Context (users : gmap ObjectId User) (activities : gmap ObjectId Activity).

Lemma trendingRanked_ids_NoDup :
  NoDup (scored_id <$> trendingRanked activities).
Proof.
  rewrite trendingRanked_perm. unfold sharedActive.
  rewrite <- list_fmap_compose.
  eapply sublist_NoDup; [apply (NoDup_fst_map_to_list activities)|].
  apply fmap_sublist, sublist_filter.
Qed.

(** X13. The trending listing never has more than [limit] entries nor
    more entries than there are activities; it shows no activity
    twice; and the [user] of an entry holds the owner's user name,
    first name and avatar when the owner's document exists and is
    empty when it does not. *)
Theorem trending_bounded :
  let listing := getTrendingActivities limit users activities in
  (length listing ≤ Pos.to_nat limit)%nat
  ∧ (length listing ≤ size activities)%nat
  ∧ NoDup (t_id <$> listing)
  ∧ ∀ t, t ∈ listing →
      ∃ a, activities !! t_id t = Some a
           ∧ t_user t
             = match users !! activity_userId a with
               | Some u => [mkTrendingUser (username u) (firstName (profile u))
                                           (avatar (profile u))]
               | None => []
               end.
Proof.
  intros listing. unfold listing, getTrendingActivities. split_and!.
  - rewrite length_fmap, length_take. lia.
  - rewrite length_fmap, length_take.
    assert (length (trendingRanked activities) ≤ size activities)%nat; [|lia].
    rewrite trendingRanked_perm, length_fmap. unfold sharedActive.
    rewrite <- length_map_to_list. apply length_filter.
  - rewrite <- list_fmap_compose.
    eapply sublist_NoDup; [apply trendingRanked_ids_NoDup|].
    apply (fmap_sublist scored_id), sublist_take.
  - intros t (sc & -> & Hin)%list_elem_of_fmap.
    apply elem_of_take in Hin as (k & Hk & _).
    apply list_elem_of_lookup_2, elem_of_trendingRanked in Hk
      as (id & a & -> & Ha & _).
    by exists a.
Qed.
End TrendingBounds.

(** ** Group membership, continued *)

Section Members.
Implicit Types (g : Group) (m : Member) (uid : ObjectId).

Lemma find_member_None uid g :
  list_find (fun m => member_userId m = uid) (members g) = None
  ↔ uid ∉ memberIds g.
Proof.
  unfold memberIds. rewrite list_find_None, Forall_forall, list_elem_of_fmap.
  split.
  - intros Hall (m & -> & Hin). by apply (Hall m).
  - intros Hnone m Hin Hm. apply Hnone. by exists m.
Qed.

Lemma memberIds_insert g i m m' :
  members g !! i = Some m → member_userId m' = member_userId m →
  memberIds (set_members (<[i := m']> (members g)) g) = memberIds g.
Proof.
  intros Hi Hid. unfold memberIds. simpl. rewrite list_fmap_insert.
  apply list_insert_id. by rewrite list_lookup_fmap, Hi, Hid.
Qed.

Lemma addMember_memberIds now uid role g :
  memberIds (addMember now uid role g)
  = memberIds g ++ (if decide (uid ∈ memberIds g) then [] else [uid]).
Proof.
  unfold addMember.
  destruct (list_find _ (members g)) as [[i m]|] eqn:Hfind.
  - apply list_find_Some in Hfind as (Hi & Hm & _).
    rewrite decide_True.
    2: { apply list_elem_of_fmap. exists m. split; [done|].
         by eapply list_elem_of_lookup_2. }
    rewrite app_nil_r. destruct (member_isActive m); [done|].
    by apply (memberIds_insert g i m).
  - apply find_member_None in Hfind. rewrite decide_False by done.
    unfold memberIds. simpl. by rewrite fmap_app.
Qed.

Lemma removeMember_memberIds uid g : memberIds (removeMember uid g) = memberIds g.
Proof.
  unfold removeMember.
  destruct (list_find _ (members g)) as [[i m]|] eqn:Hfind; [|done].
  apply list_find_Some in Hfind as (Hi & _ & _).
  by apply (memberIds_insert g i m).
Qed.

Lemma updateMemberRole_memberIds uid newRole g :
  memberIds (updateMemberRole uid newRole g) = memberIds g.
Proof.
  unfold updateMemberRole.
  destruct (list_find _ (members g)) as [[i m]|] eqn:Hfind; [|done].
  apply list_find_Some in Hfind as (Hi & _ & _).
  by apply (memberIds_insert g i m).
Qed.

Lemma runMemberCall_memberIds g c :
  ∃ new, memberIds (runMemberCall g c) = memberIds g ++ new
         ∧ (NoDup (memberIds g) → NoDup (memberIds g ++ new)).
Proof.
  destruct c as [now uid role|uid|uid newRole]; simpl.
  - eexists. split; [apply addMember_memberIds|].
    intros Hnd. case_decide; [by rewrite app_nil_r|].
    apply NoDup_app. split_and!; [done| |apply NoDup_singleton].
    intros x Hx ->%list_elem_of_singleton. done.
  - exists []. rewrite app_nil_r. split; [apply removeMember_memberIds|done].
  - exists []. rewrite app_nil_r.
    split; [apply updateMemberRole_memberIds|done].
Qed.

(** X14. Through every sequence of [addMember], [removeMember] and
    [updateMemberRole] calls no member entry is ever dropped or moved
    (the user ids present before remain, in their order, at the front
    of the list), and a group in which every user has at most one
    entry stays so. *)
Theorem members_one_entry_per_user (calls : list MemberCall) g :
  memberIds g `prefix_of` memberIds (foldl runMemberCall g calls)
  ∧ (NoDup (memberIds g) → NoDup (memberIds (foldl runMemberCall g calls))).
Proof.
  revert g. induction calls as [|c calls IH]; intros g; [done|].
  simpl. destruct (runMemberCall_memberIds g c) as (new & Hids & Hnd).
  destruct (IH (runMemberCall g c)) as [Hpre Hnd']. split.
  - etrans; [|exact Hpre]. rewrite Hids. by apply prefix_app_r.
  - intros Hg. apply Hnd'. rewrite Hids. by apply Hnd.
Qed.

Lemma unique_member g i k m x :
  NoDup (memberIds g) →
  members g !! i = Some m → members g !! k = Some x →
  member_userId x = member_userId m → k = i.
Proof.
  intros Hnd Hi Hk Hid. eapply NoDup_lookup; [exact Hnd| |].
  - unfold memberIds. by rewrite list_lookup_fmap, Hk.
  - unfold memberIds. rewrite list_lookup_fmap, Hi. simpl. by rewrite Hid.
Qed.

Lemma memberCount_deactivate g i m m' :
  members g !! i = Some m →
  member_isActive m = true → member_isActive m' = false →
  S (memberCount (set_members (<[i := m']> (members g)) g)) = memberCount g.
Proof.
  intros Hi Hm Hm'. unfold memberCount. simpl.
  rewrite insert_take_drop by (by eapply lookup_lt_Some).
  rewrite <- (take_drop_middle (members g) i m Hi) at 3.
  rewrite !filter_app, !length_app.
  rewrite filter_cons_False by (rewrite Hm'; discriminate).
  rewrite filter_cons_True by done.
  simpl. lia.
Qed.

Lemma memberCount_same g i m m' :
  members g !! i = Some m →
  member_isActive m' = member_isActive m →
  memberCount (set_members (<[i := m']> (members g)) g) = memberCount g.
Proof.
  intros Hi Hm. unfold memberCount. simpl.
  rewrite insert_take_drop by (by eapply lookup_lt_Some).
  rewrite <- (take_drop_middle (members g) i m Hi) at 3.
  rewrite !filter_app, !length_app. f_equal.
  destruct (member_isActive m) eqn:Hact.
  - by rewrite !filter_cons_True by congruence.
  - by rewrite !filter_cons_False by (rewrite ?Hm, ?Hact; discriminate).
Qed.

(** With one entry per user, the entry [find] returns by user id is
    the active entry of the user. *)
Lemma find_active_member g uid i m :
  NoDup (memberIds g) →
  list_find (activeMemberOf uid) (members g) = Some (i, m) →
  list_find (fun m => member_userId m = uid) (members g) = Some (i, m).
Proof.
  intros Hnd (Hi & [Hid Hact] & _)%list_find_Some.
  apply list_find_Some. split_and!; [done|done|].
  intros k x Hk Hlt Hx.
  assert (k = i) by (eapply unique_member; [done..|congruence]). lia.
Qed.

Lemma removeMember_no_active_entry uid g :
  NoDup (memberIds g) →
  list_find (activeMemberOf uid) (members (removeMember uid g)) = None.
Proof.
  intros Hnd. apply list_find_None, Forall_forall. intros x Hx [Hid Hact].
  unfold removeMember in Hx.
  destruct (list_find _ (members g)) as [[i m]|] eqn:Hfind.
  - apply list_find_Some in Hfind as (Hi & Hm & _). simpl in Hx.
    apply list_elem_of_lookup in Hx as [k Hk].
    destruct (decide (k = i)) as [->|Hne].
    + rewrite list_lookup_insert_eq in Hk by (by eapply lookup_lt_Some).
      injection Hk as <-. discriminate Hact.
    + rewrite list_lookup_insert_ne in Hk by done.
      destruct Hne. eapply unique_member; [done..|congruence].
  - apply list_find_None in Hfind. rewrite Forall_forall in Hfind.
    by apply (Hfind x).
Qed.

(** X15. In a group with one entry per user, [removeMember] of an
    active member deactivates that member's entry and no other: the
    user is no active member any more, the number of active members
    drops by exactly one, and every other entry is as it was.  For a
    user who is no active member it changes nothing. *)
Theorem removeMember_deactivates_one uid g :
  NoDup (memberIds g) →
  let g' := removeMember uid g in
  list_find (activeMemberOf uid) (members g') = None
  ∧ (∀ i m, list_find (activeMemberOf uid) (members g) = Some (i, m) →
       S (memberCount g') = memberCount g
       ∧ members g'
         = <[i := mkMember uid (member_role m) (member_joinedAt m) false]>
             (members g))
  ∧ (list_find (activeMemberOf uid) (members g) = None → g' = g).
Proof.
  intros Hnd g'. split_and!.
  - by apply removeMember_no_active_entry.
  - intros i m Hactive.
    apply list_find_Some in Hactive as Hparts. destruct Hparts as (Hi & [Hid Hact] & _).
    unfold g', removeMember.
    rewrite (find_active_member g uid i m) by done. rewrite Hid. split; [|done].
    by eapply memberCount_deactivate.
  - intros Hnone. unfold g', removeMember.
    destruct (list_find (fun m => member_userId m = uid) (members g))
      as [[i m]|] eqn:Hfind; [|done].
    apply list_find_Some in Hfind as (Hi & Hm & _).
    destruct (member_isActive m) eqn:Hact.
    { apply list_find_None in Hnone. rewrite Forall_forall in Hnone.
      destruct (Hnone m); [by eapply list_elem_of_lookup_2|done]. }
    rewrite list_insert_id; [by destruct g|]. rewrite Hi. f_equal.
    destruct m; simpl in *; congruence.
Qed.

(** X16. In a group with one entry per user, a member who leaves and
    joins again gets the old entry back with the old role, whatever
    role the join asks for, and a new [joinedAt]; every other entry and
    the number of active members are as before the leave. *)
Theorem leave_and_rejoin_keeps_role now uid role g i m :
  NoDup (memberIds g) →
  list_find (activeMemberOf uid) (members g) = Some (i, m) →
  let g' := addMember now uid role (removeMember uid g) in
  members g' = <[i := mkMember uid (member_role m) now true]> (members g)
  ∧ memberCount g' = memberCount g.
Proof.
  intros Hnd Hactive g'.
  apply list_find_Some in Hactive as Hparts. destruct Hparts as (Hi & [Hid Hact] & _).
  assert (Hlen : (i < length (members g))%nat) by (by eapply lookup_lt_Some).
  assert (Hleft : removeMember uid g
                  = set_members (<[i := mkMember uid (member_role m)
                                                  (member_joinedAt m) false]>
                                   (members g)) g).
  { unfold removeMember. rewrite (find_active_member g uid i m) by done.
    by rewrite Hid. }
  assert (Hfind' : list_find (fun m => member_userId m = uid)
                             (members (removeMember uid g))
                   = Some (i, mkMember uid (member_role m) (member_joinedAt m) false)).
  { rewrite Hleft. simpl. eapply list_find_update; [|done].
    by apply find_active_member. }
  assert (Hmembers : members g'
                     = <[i := mkMember uid (member_role m) now true]> (members g)).
  { unfold g', addMember. rewrite Hfind'. simpl. rewrite Hleft. simpl.
    by rewrite list_insert_insert_eq. }
  split; [done|].
  unfold memberCount. rewrite Hmembers.
  apply (memberCount_same g i m); [done|by rewrite Hact].
Qed.

(** X17. [updateMemberRole] gives an active member the new role and
    changes nothing else of the entry; it never changes the number of
    active members; and it does nothing for a user with no active
    entry, so in a group with one entry per user the role of a member
    who has left cannot be changed. *)
Theorem updateMemberRole_active_only uid newRole g :
  let g' := updateMemberRole uid newRole g in
  memberCount g' = memberCount g
  ∧ (∀ i m, list_find (activeMemberOf uid) (members g) = Some (i, m) →
       list_find (activeMemberOf uid) (members g')
       = Some (i, mkMember uid newRole (member_joinedAt m) true))
  ∧ (list_find (activeMemberOf uid) (members g) = None → g' = g)
  ∧ (NoDup (memberIds g) →
     updateMemberRole uid newRole (removeMember uid g) = removeMember uid g).
Proof.
  intros g'. split_and!.
  - unfold g', updateMemberRole.
    destruct (list_find _ (members g)) as [[i m]|] eqn:Hfind; [|done].
    apply list_find_Some in Hfind as (Hi & _ & _).
    by apply (memberCount_same g i m).
  - intros i m Hfind. unfold g', updateMemberRole. rewrite Hfind. simpl.
    apply list_find_Some in Hfind as Hparts.
    destruct Hparts as (Hi & [Hid Hact] & _).
    rewrite Hid, Hact. by eapply list_find_update.
  - intros Hnone. unfold g', updateMemberRole. by rewrite Hnone.
  - intros Hnd. unfold updateMemberRole at 1.
    by rewrite removeMember_no_active_entry.
Qed.
End Members.

Lemma members_one_entry_per_user_witness :
  NoDup (memberIds (foldl runMemberCall walkers_full
                      [CallRemoveMember 3; CallAddMember 9 5 member;
                       CallAddMember 9 3 admin])).
Proof.
  apply (members_one_entry_per_user
           [CallRemoveMember 3; CallAddMember 9 5 member; CallAddMember 9 3 admin]
           walkers_full).
  unfold memberIds. simpl. apply NoDup_cons. split.
  - intros Hin. apply list_elem_of_singleton in Hin. discriminate Hin.
  - apply NoDup_singleton.
Defined.

Lemma walkers_full_NoDup : NoDup (memberIds walkers_full).
Proof.
  unfold memberIds. simpl. apply NoDup_cons. split.
  - intros Hin. apply list_elem_of_singleton in Hin. discriminate Hin.
  - apply NoDup_singleton.
Defined.

Lemma removeMember_deactivates_one_witness :
  list_find (activeMemberOf 3) (members (removeMember 3 walkers_full)) = None
  ∧ S (memberCount (removeMember 3 walkers_full)) = memberCount walkers_full.
Proof.
  destruct (removeMember_deactivates_one 3 walkers_full walkers_full_NoDup)
    as (Hgone & Hone & _).
  split; [exact Hgone|].
  exact (proj1 (Hone 1%nat (mkMember 3 member 0 true) eq_refl)).
Defined.

Lemma leave_and_rejoin_keeps_role_witness :
  members (addMember 9 4 member (removeMember 4 walkers_full))
  = [mkMember 4 admin 9 true; mkMember 3 member 0 true].
Proof.
  exact (proj1 (leave_and_rejoin_keeps_role 9 4 member walkers_full 0
                  (mkMember 4 admin 0 true) walkers_full_NoDup eq_refl)).
Defined.

Lemma updateMemberRole_active_only_witness :
  list_find (activeMemberOf 3) (members (updateMemberRole 3 moderator walkers_full))
  = Some (1%nat, mkMember 3 moderator 0 true)
  ∧ updateMemberRole 3 admin (removeMember 3 walkers_full)
    = removeMember 3 walkers_full.
Proof.
  destruct (updateMemberRole_active_only 3 moderator walkers_full)
    as (_ & Hrole & _ & _).
  destruct (updateMemberRole_active_only 3 admin walkers_full)
    as (_ & _ & _ & Hleft).
  split; [exact (Hrole 1%nat (mkMember 3 member 0 true) eq_refl)|].
  exact (Hleft walkers_full_NoDup).
Defined.

(** ** Challenges, continued *)

Section Challenges.
Implicit Types (g : Group) (c : Challenge) (p : Participant).

Lemma find_participant_None uid c :
  list_find (fun p => participant_userId p = uid) (participants c) = None
  ↔ uid ∉ participantIds c.
Proof.
  unfold participantIds.
  rewrite list_find_None, Forall_forall, list_elem_of_fmap. split.
  - intros Hall (p & -> & Hin). by apply (Hall p).
  - intros Hnone p Hin Hp. apply Hnone. by exists p.
Qed.

(** Both calls keep the challenges in place and every challenge's
    participants unique. *)
Lemma runChallengeCall_keeps g call :
  challenge_id <$> challenges (runChallengeCall g call)
  = challenge_id <$> challenges g
  ∧ (Forall (fun c => NoDup (participantIds c)) (challenges g) →
     Forall (fun c => NoDup (participantIds c))
            (challenges (runChallengeCall g call))).
Proof.
  destruct call as [now cid uid|now cid uid newProgress]; simpl.
  - unfold joinChallenge.
    destruct (list_find _ (challenges g)) as [[ci c]|] eqn:Hc; [|done].
    destruct (challenge_isActive c); [|done].
    destruct (list_find _ (participants c)) as [[pi p]|] eqn:Hp; [done|].
    apply list_find_Some in Hc as (Hci & _ & _).
    apply find_participant_None in Hp. simpl. split.
    + rewrite list_fmap_insert. apply list_insert_id.
      by rewrite list_lookup_fmap, Hci.
    + intros Hall. apply Forall_insert; [done|].
      unfold participantIds. simpl. rewrite fmap_app. apply NoDup_app.
      split_and!; [|intros x Hx ->%list_elem_of_singleton; done
                   |apply NoDup_singleton].
      rewrite Forall_forall in Hall. apply (Hall c).
      by eapply list_elem_of_lookup_2.
  - unfold updateChallengeProgress.
    destruct (list_find _ (challenges g)) as [[ci c]|] eqn:Hc; [|done].
    destruct (list_find _ (participants c)) as [[pi p]|] eqn:Hp; [|done].
    apply list_find_Some in Hc as (Hci & _ & _).
    apply list_find_Some in Hp as (Hpi & _ & _). simpl. split.
    + rewrite list_fmap_insert. apply list_insert_id.
      by rewrite list_lookup_fmap, Hci.
    + intros Hall. apply Forall_insert; [done|].
      unfold participantIds. simpl. rewrite list_fmap_insert. simpl.
      rewrite list_insert_id by (by rewrite list_lookup_fmap, Hpi).
      rewrite Forall_forall in Hall. apply (Hall c).
      by eapply list_elem_of_lookup_2.
Qed.

(** X18. Through every sequence of [joinChallenge] and
    [updateChallengeProgress] calls the group keeps the same
    challenges, in their order, and a group in which no user takes
    part twice in a challenge stays so. *)
Theorem participants_one_entry_per_user (calls : list ChallengeCall) g :
  challenge_id <$> challenges (foldl runChallengeCall g calls)
  = challenge_id <$> challenges g
  ∧ (Forall (fun c => NoDup (participantIds c)) (challenges g) →
     Forall (fun c => NoDup (participantIds c))
            (challenges (foldl runChallengeCall g calls))).
Proof.
  revert g. induction calls as [|call calls IH]; intros g; [done|].
  simpl. destruct (runChallengeCall_keeps g call) as [Hids Hnd].
  destruct (IH (runChallengeCall g call)) as [Hids' Hnd'].
  split; [congruence|auto].
Qed.

(** The challenge that the calls address, after an update of it that
    keeps its [_id]. *)
Lemma participantOf_insert g cid uid ci c c' :
  list_find (fun c => challenge_id c = cid) (challenges g) = Some (ci, c) →
  challenge_id c' = challenge_id c →
  participantOf (set_challenges (<[ci := c']> (challenges g)) g) cid uid
  = snd <$> list_find (fun p => participant_userId p = uid) (participants c').
Proof.
  intros Hc Hid. unfold participantOf. simpl.
  rewrite (list_find_update _ _ ci c c' Hc); [done|].
  apply list_find_Some in Hc as (_ & Hcid & _). congruence.
Qed.

Lemma joinChallenge_again now now' cid uid g :
  joinChallenge now' cid uid (joinChallenge now cid uid g)
  = joinChallenge now cid uid g.
Proof.
  unfold joinChallenge at 2 3.
  destruct (list_find (fun c => challenge_id c = cid) (challenges g))
    as [[ci c]|] eqn:Hc.
  2: { unfold joinChallenge. by rewrite Hc. }
  destruct (challenge_isActive c) eqn:Hactive.
  2: { unfold joinChallenge. by rewrite Hc, Hactive. }
  destruct (list_find (fun p => participant_userId p = uid) (participants c))
    as [[pi p]|] eqn:Hp.
  { unfold joinChallenge. by rewrite Hc, Hactive, Hp. }
  unfold joinChallenge. simpl.
  rewrite (list_find_update _ _ ci c
             (set_participants
                (participants c ++ [mkParticipant uid 0 now false]) c) Hc).
  2: { apply list_find_Some in Hc as (_ & Hcid & _). exact Hcid. }
  simpl. rewrite Hactive, list_find_app_r by done. simpl.
  by rewrite decide_True.
Qed.

(** X19. [joinChallenge] enrols a user once: in an active challenge a
    user who is no participant gets an entry with progress 0, not
    completed; a user who already takes part keeps the entry as it is,
    progress and completion included; joining again changes nothing;
    and a challenge that is inactive or not in the group takes no
    participant. *)
Theorem joinChallenge_enrols_once now cid uid g :
  let g' := joinChallenge now cid uid g in
  (∀ ci c, list_find (fun c => challenge_id c = cid) (challenges g)
           = Some (ci, c) →
     challenge_isActive c = true → participantOf g cid uid = None →
     participantOf g' cid uid = Some (mkParticipant uid 0 now false))
  ∧ (is_Some (participantOf g cid uid) → g' = g)
  ∧ (∀ now', joinChallenge now' cid uid g' = g')
  ∧ ((∀ ci c, list_find (fun c => challenge_id c = cid) (challenges g)
              = Some (ci, c) → challenge_isActive c = false) → g' = g).
Proof.
  intros g'.
  assert (Henrol : ∀ ci c,
    list_find (fun c => challenge_id c = cid) (challenges g) = Some (ci, c) →
    challenge_isActive c = true → participantOf g cid uid = None →
    g' = set_challenges
           (<[ci := set_participants
                      (participants c ++ [mkParticipant uid 0 now false]) c]>
              (challenges g)) g
    ∧ participantOf g' cid uid = Some (mkParticipant uid 0 now false)).
  { intros ci c Hc Hactive Hnone. unfold participantOf in Hnone.
    rewrite Hc in Hnone. apply fmap_None in Hnone.
    assert (Hg' : g' = set_challenges
                         (<[ci := set_participants
                                    (participants c
                                     ++ [mkParticipant uid 0 now false]) c]>
                            (challenges g)) g).
    { unfold g', joinChallenge. by rewrite Hc, Hactive, Hnone. }
    split; [done|]. rewrite Hg'.
    rewrite (participantOf_insert g cid uid ci c) by done. simpl.
    rewrite list_find_app_r by done. simpl.
    by rewrite decide_True. }
  assert (Hkeep : is_Some (participantOf g cid uid) → g' = g).
  { intros [p Hp]. unfold participantOf in Hp. unfold g', joinChallenge.
    destruct (list_find _ (challenges g)) as [[ci c]|]; [|done].
    destruct (challenge_isActive c); [|done].
    by destruct (list_find _ (participants c)) as [[pi q]|]. }
  split_and!.
  - intros ci c Hc Hactive Hnone. by apply (Henrol ci c).
  - exact Hkeep.
  - intros now'. apply joinChallenge_again.
  - intros Hinactive. unfold g', joinChallenge.
    destruct (list_find _ (challenges g)) as [[ci c]|] eqn:Hc; [|done].
    by rewrite (Hinactive ci c eq_refl).
Qed.

(** When [progress >= challenge.goal.target] holds: the target is a
    number that the progress reaches, or it is [null] and the progress
    is not negative; never when the challenge has no target. *)
Lemma reachesTarget_true progress tg :
  reachesTarget progress tg = true
  ↔ (∃ t, tg = number t ∧ t ≤ progress) ∨ (tg = null ∧ 0 ≤ progress).
Proof.
  destruct tg as [t| |]; simpl.
  - rewrite Z.leb_le. split; [eauto|].
    intros [(t' & Ht & Hle)|[Hn _]]; [congruence|discriminate].
  - rewrite Z.leb_le. split; [auto|].
    intros [(t' & Ht & _)|[_ Hle]]; [discriminate|done].
  - split; [discriminate|].
    intros [(t' & Ht & _)|[Hn _]]; discriminate.
Qed.

(** X20. A user who joins an active challenge and then reports
    progress has an entry with that progress and the time of the
    report.  The entry is completed exactly when the comparison
    [progress >= challenge.goal.target] of the code holds: for a
    number as target, when the progress reaches it; for a target
    stored as [null], when the progress is not negative; for a
    challenge without target, never.  The entries of the other users
    of the challenge are as they were. *)
Theorem join_then_progress now now' cid uid newProgress g ci c :
  list_find (fun c => challenge_id c = cid) (challenges g) = Some (ci, c) →
  challenge_isActive c = true → participantOf g cid uid = None →
  let g' := updateChallengeProgress now' cid uid newProgress
              (joinChallenge now cid uid g) in
  participantOf g' cid uid
  = Some (mkParticipant uid newProgress now'
                        (reachesTarget newProgress (target c)))
  ∧ ∀ other, other ≠ uid →
      participantOf g' cid other = participantOf g cid other.
Proof.
  intros Hc Hactive Hnone g'.
  unfold participantOf in Hnone. rewrite Hc in Hnone.
  apply fmap_None in Hnone.
  set (ps := participants c) in *.
  set (c1 := set_participants (ps ++ [mkParticipant uid 0 now false]) c).
  assert (Hjoin : joinChallenge now cid uid g
                  = set_challenges (<[ci := c1]> (challenges g)) g).
  { unfold joinChallenge. rewrite Hc, Hactive. fold ps. by rewrite Hnone. }
  assert (Hc1 : list_find (fun c => challenge_id c = cid)
                          (<[ci := c1]> (challenges g)) = Some (ci, c1)).
  { eapply list_find_update; [exact Hc|].
    apply list_find_Some in Hc as (_ & Hcid & _). exact Hcid. }
  assert (Hp1 : list_find (fun p => participant_userId p = uid) (participants c1)
                = Some (length ps, mkParticipant uid 0 now false)).
  { unfold c1. simpl. rewrite list_find_app_r by done. simpl.
    by rewrite decide_True. }
  set (p2 := mkParticipant uid newProgress now'
               (reachesTarget newProgress (target c))).
  set (c2 := set_participants (<[length ps := p2]> (participants c1)) c1).
  assert (Hg' : g' = set_challenges
                       (<[ci := c2]> (<[ci := c1]> (challenges g))) g).
  { unfold g', updateChallengeProgress. rewrite Hjoin. simpl.
    rewrite Hc1, Hp1. simpl. unfold c2, p2.
    by destruct (reachesTarget newProgress (target c)). }
  assert (Hparts : participants c2 = ps ++ [p2]).
  { unfold c2, c1. simpl.
    rewrite insert_app_r_alt by done. by rewrite Nat.sub_diag. }
  assert (Hof : ∀ who, participantOf g' cid who
                       = snd <$> list_find (fun p => participant_userId p = who)
                                           (ps ++ [p2])).
  { intros who. rewrite Hg', list_insert_insert_eq, <- Hparts.
    by apply (participantOf_insert g cid who ci c). }
  split.
  - rewrite Hof, list_find_app_r by done. simpl. by rewrite decide_True.
  - intros other Hother. rewrite Hof. unfold participantOf. rewrite Hc.
    fold ps.
    destruct (list_find (fun p => participant_userId p = other) ps)
      as [[k q]|] eqn:Hq.
    + by rewrite (list_find_app_l _ _ _ _ _ Hq).
    + rewrite list_find_app_r by done. simpl.
      by rewrite decide_False by (simpl; congruence).
Qed.
End Challenges.

Lemma participants_one_entry_per_user_witness :
  Forall (fun c => NoDup (participantIds c))
         (challenges (foldl runChallengeCall stretchers2
                        [CallJoinChallenge 9 20 5; CallJoinChallenge 9 20 5;
                         CallUpdateProgress 9 20 5 3])).
Proof.
  apply (participants_one_entry_per_user
           [CallJoinChallenge 9 20 5; CallJoinChallenge 9 20 5;
            CallUpdateProgress 9 20 5 3] stretchers2).
  repeat constructor. intros Hin. by apply elem_of_nil in Hin.
Defined.

Lemma joinChallenge_enrols_once_witness :
  participantOf (joinChallenge 9 20 5 stretchers2) 20 5
  = Some (mkParticipant 5 0 9 false)
  ∧ joinChallenge 9 20 4 stretchers2 = stretchers2
  ∧ joinChallenge 9 21 5 stretchers2 = stretchers2.
Proof.
  destruct (joinChallenge_enrols_once 9 20 5 stretchers2) as (Hnew & _).
  destruct (joinChallenge_enrols_once 9 20 4 stretchers2) as (_ & Hkeep & _).
  destruct (joinChallenge_enrols_once 9 21 5 stretchers2) as (_ & _ & _ & Hclosed).
  split_and!.
  - exact (Hnew 0%nat week_of_walks eq_refl eq_refl eq_refl).
  - apply Hkeep. by eexists.
  - apply Hclosed. intros ci c [= <- <-]. reflexivity.
Defined.

Lemma join_then_progress_witness :
  participantOf (updateChallengeProgress 10 20 5 7 (joinChallenge 9 20 5 stretchers2))
                20 5
  = Some (mkParticipant 5 7 10 true)
  ∧ participantOf (updateChallengeProgress 10 20 5 6 (joinChallenge 9 20 5 stretchers3))
                  20 5
    = Some (mkParticipant 5 6 10 false)
  ∧ participantOf (updateChallengeProgress 10 22 5 0 (joinChallenge 9 22 5 stretchers3))
                  22 5
    = Some (mkParticipant 5 0 10 true).
Proof.
  split_and!.
  - exact (proj1 (join_then_progress 9 10 20 5 7 stretchers2 0 week_of_walks
                    eq_refl eq_refl eq_refl)).
  - exact (proj1 (join_then_progress 9 10 20 5 6 stretchers3 0 week_of_walks
                    eq_refl eq_refl eq_refl)).
  - exact (proj1 (join_then_progress 9 10 22 5 0 stretchers3 2 open_ended
                    eq_refl eq_refl eq_refl)).
Defined.

(** ** The challenge routes *)

Section ChallengeRoutes.
Context (s : State) (uid : ObjectId) (user : User) (gid : ObjectId) (g : Group).
Hypothesis Hu : db_users s !! uid = Some user.
Hypothesis Hact : user_isActive user = true.
Hypothesis Hg : db_groups s !! gid = Some g.
Hypothesis Hgactive : group_isActive g = true.

(** X21. Only active members of the group may join its challenges:
    for anyone else the join-challenge route answers 403 and writes
    nothing.  For an active member it answers 200 and stores the group
    that [joinChallenge] yields, also when the challenge is closed or
    not in the group and nothing was joined; a repeated request leaves
    the stored state as it is. *)
Theorem challenge_join_needs_membership now cid :
  let r := post_challenges_join now (Verified uid) gid cid s in
  (list_find (activeMemberOf uid) (members g) = None →
   r = (reply 403 "Must be a group member to join challenges", s))
  ∧ (is_Some (list_find (activeMemberOf uid) (members g)) →
     r = (reply 200 "Successfully joined challenge",
          mkState (db_users s) (db_activities s)
                  (<[gid := joinChallenge now cid uid g]> (db_groups s))
                  (emitted s))
     ∧ ∀ now', (post_challenges_join now' (Verified uid) gid cid r.2).2 = r.2).
Proof.
  intros r.
  assert (Hroute : ∀ now s0 g0,
    db_users s0 !! uid = Some user → db_groups s0 !! gid = Some g0 →
    group_isActive g0 = true →
    post_challenges_join now (Verified uid) gid cid s0
    = match list_find (activeMemberOf uid) (members g0) with
      | Some _ =>
          (reply 200 "Successfully joined challenge",
           mkState (db_users s0) (db_activities s0)
                   (<[gid := joinChallenge now cid uid g0]> (db_groups s0))
                   (emitted s0))
      | None => (reply 403 "Must be a group member to join challenges", s0)
      end).
  { intros now0 s0 g0 Hu0 Hg0 Hactive0. unfold post_challenges_join.
    rewrite (auth_verified uid user) by done.
    step_unfold. simpl. rewrite Hg0, Hactive0. simpl.
    by destruct (list_find (activeMemberOf uid) (members g0)) as [[i m]|]. }
  unfold r. rewrite (Hroute now s g) by done. split.
  - by intros ->.
  - intros [[i m] Hmember]. rewrite Hmember. split; [done|].
    intros now'. cbn [snd].
    assert (Hmembers : members (joinChallenge now cid uid g) = members g).
    { unfold joinChallenge. by repeat case_match. }
    assert (Hactive' : group_isActive (joinChallenge now cid uid g) = true).
    { unfold joinChallenge. by repeat case_match. }
    rewrite (Hroute now' _ (joinChallenge now cid uid g));
      [|done|apply lookup_insert_eq|done].
    rewrite Hmembers, Hmember. cbn [snd db_users db_activities db_groups emitted].
    by rewrite joinChallenge_again, insert_insert_eq.
Qed.

(** X22. Only active admins and moderators of the group may create a
    challenge: for a plain member and for anyone who is no active
    member the route answers 403 and writes nothing.  For an admin or
    moderator a body that passes validation is answered with 201 and
    the group is stored with one more challenge at the end, active and
    without participants, its members untouched; a body that fails
    validation is answered with 500 and nothing is written. *)
Theorem challenge_creation_needs_role newId body :
  let r := post_groups_challenges newId (Verified uid) gid body s in
  ((∀ i m, list_find (activeMemberOf uid) (members g) = Some (i, m) →
           member_role m = member) →
   r = (reply 403 "Only admins and moderators can create challenges", s))
  ∧ (∀ i m, list_find (activeMemberOf uid) (members g) = Some (i, m) →
       member_role m ≠ member →
       r = if validChallenge body
           then (reply 201 "Challenge created successfully",
                 mkState (db_users s) (db_activities s)
                   (<[gid := set_challenges
                               (challenges g
                                ++ [mkChallenge newId
                                      (default ""%string (ch_title body))
                                      (ch_target body) [] true]) g]>
                      (db_groups s))
                   (emitted s))
           else (reply 500 "Error creating challenge", s)).
Proof.
  intros r. unfold r, post_groups_challenges.
  rewrite (auth_verified uid user) by done.
  step_unfold. simpl. rewrite Hg, Hgactive. simpl. split.
  - intros Hplain.
    destruct (list_find (activeMemberOf uid) (members g)) as [[i m]|]; [|done].
    by rewrite (Hplain i m eq_refl).
  - intros i m Hmember Hrole. rewrite Hmember.
    destruct (member_role m); [| |done];
      by destruct (validChallenge body).
Qed.
End ChallengeRoutes.

Lemma challenge_join_needs_membership_witness :
  post_challenges_join 9 (Verified 3) 10 20 challenged2
  = (reply 403 "Must be a group member to join challenges", challenged2)
  ∧ (post_challenges_join 9 (Verified 5) 10 20 challenged2).1
    = reply 200 "Successfully joined challenge".
Proof.
  split.
  - exact (proj1 (challenge_join_needs_membership challenged2 3 carol 10
                    stretchers2 eq_refl eq_refl eq_refl eq_refl 9 20) eq_refl).
  - destruct (proj2 (challenge_join_needs_membership challenged2 5 erin 10
                       stretchers2 eq_refl eq_refl eq_refl eq_refl 9 20))
      as [Hr _]; [by eexists|].
    by rewrite Hr.
Defined.

Lemma challenge_creation_needs_role_witness :
  post_groups_challenges 22 (Verified 5) 10 ten_day_body challenged2
  = (reply 403 "Only admins and moderators can create challenges", challenged2)
  ∧ (post_groups_challenges 22 (Verified 4) 10 ten_day_body challenged2).1
    = reply 201 "Challenge created successfully".
Proof.
  split.
  - apply (proj1 (challenge_creation_needs_role challenged2 5 erin 10
                    stretchers2 eq_refl eq_refl eq_refl eq_refl 22 ten_day_body)).
    intros i m [= <- <-]. reflexivity.
  - rewrite (proj2 (challenge_creation_needs_role challenged2 4 dave 10
                      stretchers2 eq_refl eq_refl eq_refl eq_refl 22 ten_day_body)
               0%nat (mkMember 4 admin 0 true) eq_refl ltac:(discriminate)).
    reflexivity.
Defined.

(** ** The friend routes, continued *)

Section FriendLists.
Implicit Types (l : list Friend) (x b : ObjectId).

Lemma filter_friends_none x l :
  list_find (friendOf x) (filter (fun f => ¬ friendOf x f) l) = None.
Proof.
  apply list_find_None, Forall_forall.
  by intros f [Hnot _]%list_elem_of_filter.
Qed.

Lemma filter_friends_other x b l :
  b ≠ x →
  (fun e => friend_status e.2)
    <$> list_find (friendOf b) (filter (fun f => ¬ friendOf x f) l)
  = (fun e => friend_status e.2) <$> list_find (friendOf b) l.
Proof.
  intros Hne. induction l as [|f l IH]; [done|].
  destruct (decide (friendOf x f)) as [Hx|Hx].
  - rewrite filter_cons_False by auto. rewrite IH. simpl.
    rewrite decide_False by (unfold friendOf in *; congruence).
    by destruct (list_find (friendOf b) l) as [[k e]|].
  - rewrite filter_cons_True by done. simpl.
    destruct (decide (friendOf b f)); [done|].
    destruct (list_find (friendOf b) l) as [[k e]|] eqn:Hl;
      destruct (list_find (friendOf b) (filter _ l)) as [[k' e']|] eqn:Hl';
      simpl in *; congruence.
Qed.

Lemma filter_friends_absent x l :
  list_find (friendOf x) l = None →
  filter (fun f => ¬ friendOf x f) l = l.
Proof.
  intros Hnone. apply list_find_None in Hnone.
  induction Hnone as [|f l Hf Hl IH]; [done|].
  by rewrite filter_cons_True, IH.
Qed.

Lemma set_friends_same (u : User) : set_friends (friends u) u = u.
Proof. by destruct u. Qed.
End FriendLists.

(** The accept route for a signed-in user and an existing target. *)
Lemma post_friends_accept_eq s uidA uidB userA userB :
  db_users s !! uidA = Some userA → user_isActive userA = true →
  db_users s !! uidB = Some userB →
  post_friends_accept (Verified uidA) (Some uidB) s
  = match list_find (friendOf uidB) (friends userA),
          list_find (friendOf uidA) (friends userB) with
    | Some (i, fa), Some (j, fb) =>
        (reply 200 "Friend request accepted",
         with_users
           (<[uidB := set_friends (<[j := set_status accepted fb]> (friends userB))
                                  userB]>
              (<[uidA := set_friends (<[i := set_status accepted fa]> (friends userA))
                                     userA]> (db_users s)))
           s)
    | _, _ => (reply 400 "Friend request not found", s)
    end.
Proof.
  intros HA HAactive HB. unfold post_friends_accept.
  rewrite (auth_verified uidA userA) by done.
  step_unfold. simpl. rewrite HB, HA. simpl.
  destruct (list_find (friendOf uidB) (friends userA)) as [[i fa]|];
    destruct (list_find (friendOf uidA) (friends userB)) as [[j fb]|]; done.
Qed.

(** The remove route for a signed-in user and an existing target. *)
Lemma delete_friends_eq s uidA uidB userA userB :
  db_users s !! uidA = Some userA → user_isActive userA = true →
  db_users s !! uidB = Some userB →
  delete_friends (Verified uidA) uidB s
  = (reply 200 "Friend removed successfully",
     with_users
       (<[uidB := set_friends (filter (fun f => ¬ friendOf uidA f) (friends userB))
                              userB]>
          (<[uidA := set_friends (filter (fun f => ¬ friendOf uidB f) (friends userA))
                                 userA]> (db_users s)))
       s).
Proof.
  intros HA HAactive HB. unfold delete_friends.
  rewrite (auth_verified uidA userA) by done.
  step_unfold. simpl. by rewrite HB, HA.
Qed.

Section RemoveFriend.
Context (s : State) (uidA uidB : ObjectId) (userA userB : User).
Hypothesis HA : db_users s !! uidA = Some userA.
Hypothesis HAactive : user_isActive userA = true.
Hypothesis HB : db_users s !! uidB = Some userB.

(** X23. Removing a friend (or declining a request) answers 200,
    whether or not there was anything to remove, and afterwards
    neither user's list reports any status for the other: every entry
    for the other is gone, duplicates included.  What the two lists
    report about third users is as before, and no other user's
    document changes. *)
Theorem remove_friend_clears_both_sides :
  let r := delete_friends (Verified uidA) uidB s in
  r.1 = reply 200 "Friend removed successfully"
  ∧ friendStatus r.2 uidA uidB = None
  ∧ friendStatus r.2 uidB uidA = None
  ∧ (∀ other, other ≠ uidA → other ≠ uidB →
       friendStatus r.2 uidA other = friendStatus s uidA other
       ∧ friendStatus r.2 uidB other = friendStatus s uidB other
       ∧ db_users r.2 !! other = db_users s !! other).
Proof.
  intros r. unfold r. rewrite (delete_friends_eq s uidA uidB userA userB) by done.
  cbn [fst snd]. unfold friendStatus, with_users. cbn [db_users].
  split_and!; [done|..].
  - destruct (decide (uidB = uidA)) as [->|Hne].
    + rewrite lookup_insert_eq. simpl. by rewrite filter_friends_none.
    + rewrite lookup_insert_ne, lookup_insert_eq by done. simpl.
      by rewrite filter_friends_none.
  - rewrite lookup_insert_eq. simpl. by rewrite filter_friends_none.
  - intros other HoA HoB. split_and!.
    + destruct (decide (uidB = uidA)) as [->|Hne].
      * rewrite lookup_insert_eq, HA. simpl.
        rewrite HA in HB. injection HB as <-.
        by apply filter_friends_other.
      * rewrite lookup_insert_ne, lookup_insert_eq, HA by done. simpl.
        by apply filter_friends_other.
    + rewrite lookup_insert_eq, HB. simpl. by apply filter_friends_other.
    + by rewrite !lookup_insert_ne by done.
Qed.

(** X24. Accepting without an entry on both sides is refused: when
    either user holds no entry for the other, the accept route answers
    400, "Friend request not found", and writes nothing. *)
Theorem accept_needs_both_entries :
  list_find (friendOf uidB) (friends userA) = None
  ∨ list_find (friendOf uidA) (friends userB) = None →
  post_friends_accept (Verified uidA) (Some uidB) s
  = (reply 400 "Friend request not found", s).
Proof.
  intros Hmissing.
  rewrite (post_friends_accept_eq s uidA uidB userA userB) by done.
  destruct Hmissing as [-> | ->]; [done|].
  by destruct (list_find (friendOf uidB) (friends userA)) as [[i fa]|].
Qed.
End RemoveFriend.

Lemma remove_friend_clears_both_sides_witness :
  friendStatus (delete_friends (Verified 1) 2 friends_pending).2 1 2 = None
  ∧ friendStatus (delete_friends (Verified 1) 2 friends_pending).2 2 1 = None.
Proof.
  destruct (remove_friend_clears_both_sides friends_pending 1 2 alice bob
              eq_refl eq_refl eq_refl) as (_ & HA & HB & _).
  split; [exact HA | exact HB].
Defined.

Lemma accept_needs_both_entries_witness :
  post_friends_accept (Verified 5) (Some 4%N) strangers
  = (reply 400 "Friend request not found", strangers).
Proof.
  exact (accept_needs_both_entries strangers 5 4 erin dave eq_refl eq_refl
           eq_refl (or_introl eq_refl)).
Defined.

(** ** A friend request from start to end *)

Section FriendLifecycle.
Context (s : State) (cid tid : ObjectId) (c t : User) (uname : string).
Context (now1 now2 : Date).
Hypothesis Hc : db_users s !! cid = Some c.
Hypothesis Hcactive : user_isActive c = true.
Hypothesis Ht : db_users s !! tid = Some t.
Hypothesis Hname : username t = uname.
Hypothesis Huniq :
  ∀ id u, db_users s !! id = Some u → username u = uname → id = tid.
Hypothesis Hnonempty : uname ≠ ""%string.
Hypothesis Hother : uname ≠ username c.
Hypothesis Hnew_c : list_find (friendOf tid) (friends c) = None.
Hypothesis Hnew_t : list_find (friendOf cid) (friends t) = None.

(** The two documents and the state after the request. *)
Let c1 : User := set_friends (friends c ++ [mkFriend tid pending now1]) c.
Let t1 : User := set_friends (friends t ++ [mkFriend cid pending now2]) t.
Let s1 : State := with_users (<[tid := t1]> (<[cid := c1]> (db_users s))) s.

Lemma lifecycle_distinct : cid ≠ tid.
Proof. intros ->. rewrite Hc in Ht. injection Ht as ->. by destruct Hother. Qed.

Lemma lifecycle_request :
  post_friends_request now1 now2 (Verified cid) (Some uname) s
  = (reply 200 "Friend request sent successfully", s1).
Proof.
  rewrite (request_reaches_check s cid tid c t uname) by done.
  rewrite Hnew_c. by step_unfold.
Qed.

Lemma lifecycle_lookup_c : db_users s1 !! cid = Some c1.
Proof.
  unfold s1, with_users. simpl.
  rewrite lookup_insert_ne by (intros Heq; by apply lifecycle_distinct).
  apply lookup_insert_eq.
Qed.

Lemma lifecycle_lookup_t : db_users s1 !! tid = Some t1.
Proof. unfold s1, with_users. simpl. apply lookup_insert_eq. Qed.

Lemma lifecycle_find_c :
  list_find (friendOf tid) (friends c1)
  = Some (length (friends c), mkFriend tid pending now1).
Proof.
  unfold c1. simpl. rewrite list_find_app_r by done. simpl.
  by rewrite decide_True.
Qed.

Lemma lifecycle_find_t :
  list_find (friendOf cid) (friends t1)
  = Some (length (friends t), mkFriend cid pending now2).
Proof.
  unfold t1. simpl. rewrite list_find_app_r by done. simpl.
  by rewrite decide_True.
Qed.

(** X25. A request between two users who hold no entry for each other
    is answered with 200 and leaves each list reporting pending for
    the other.  Its removal, by the sender who withdraws or by the
    (active) recipient who declines, is answered with 200, "Friend
    removed successfully", and takes the two entries out again: after
    it every user's friends list is the one from before the request,
    the same users exist, and activities, groups and events are
    untouched.  (The request and the removal save both user documents,
    so what Mongoose keeps by itself on a save, [updatedAt] and the
    version key, is not as before; the statement is about the friends
    lists.) *)
Theorem request_then_remove :
  let r1 := post_friends_request now1 now2 (Verified cid) (Some uname) s in
  let withdrawn := delete_friends (Verified cid) tid r1.2 in
  let declined := delete_friends (Verified tid) cid r1.2 in
  status r1.1 = 200%nat
  ∧ friendStatus r1.2 cid tid = Some pending
  ∧ friendStatus r1.2 tid cid = Some pending
  ∧ withdrawn.1 = reply 200 "Friend removed successfully"
  ∧ sameFriends s withdrawn.2
  ∧ (user_isActive t = true →
     declined.1 = reply 200 "Friend removed successfully"
     ∧ sameFriends s declined.2).
Proof.
  intros r1 withdrawn declined. unfold withdrawn, declined, r1.
  rewrite lifecycle_request. cbn [fst snd].
  assert (Hback_c : friends (set_friends (filter (fun f => ¬ friendOf tid f)
                                                 (friends c1)) c1)
                    = friends c).
  { unfold c1. simpl. rewrite filter_app, filter_friends_absent by done.
    rewrite filter_cons_False by (unfold friendOf; simpl; auto).
    by rewrite filter_nil, app_nil_r. }
  assert (Hback_t : friends (set_friends (filter (fun f => ¬ friendOf cid f)
                                                 (friends t1)) t1)
                    = friends t).
  { unfold t1. simpl. rewrite filter_app, filter_friends_absent by done.
    rewrite filter_cons_False by (unfold friendOf; simpl; auto).
    by rewrite filter_nil, app_nil_r. }
  split_and!; [done| | | | |intros Htactive; split].
  - unfold friendStatus. by rewrite lifecycle_lookup_c, lifecycle_find_c.
  - unfold friendStatus. by rewrite lifecycle_lookup_t, lifecycle_find_t.
  - by rewrite (delete_friends_eq s1 cid tid c1 t1);
      [|apply lifecycle_lookup_c|done|apply lifecycle_lookup_t].
  - rewrite (delete_friends_eq s1 cid tid c1 t1);
      [|apply lifecycle_lookup_c|done|apply lifecycle_lookup_t].
    split; [|done]. intros k. unfold s1, with_users. cbn [fst snd db_users].
    rewrite !lookup_insert.
    repeat case_decide; simplify_eq; cbn [fmap option_fmap option_map];
      rewrite ?Hback_c, ?Hback_t, ?Hc, ?Ht; done.
  - by rewrite (delete_friends_eq s1 tid cid t1 c1);
      [|apply lifecycle_lookup_t|done|apply lifecycle_lookup_c].
  - rewrite (delete_friends_eq s1 tid cid t1 c1);
      [|apply lifecycle_lookup_t|done|apply lifecycle_lookup_c].
    split; [|done]. intros k. unfold s1, with_users. cbn [fst snd db_users].
    rewrite !lookup_insert.
    repeat case_decide; simplify_eq; cbn [fmap option_fmap option_map];
      rewrite ?Hback_c, ?Hback_t, ?Hc, ?Ht; done.
Qed.

(** X26. A request between two users who hold no entry for each other,
    accepted by the recipient, makes them friends: both lists report
    accepted for the other.  A further request from the sender is then
    refused with 400, "Already friends", and writes nothing. *)
Theorem request_then_accept now3 now4 :
  user_isActive t = true →
  let r1 := post_friends_request now1 now2 (Verified cid) (Some uname) s in
  let r2 := post_friends_accept (Verified tid) (Some cid) r1.2 in
  status r1.1 = 200%nat
  ∧ r2.1 = reply 200 "Friend request accepted"
  ∧ friendStatus r2.2 cid tid = Some accepted
  ∧ friendStatus r2.2 tid cid = Some accepted
  ∧ post_friends_request now3 now4 (Verified cid) (Some uname) r2.2
    = (reply 400 "Already friends", r2.2).
Proof.
  intros Htactive r1 r2. unfold r2, r1. rewrite lifecycle_request.
  cbn [fst snd].
  rewrite (post_friends_accept_eq s1 tid cid t1 c1);
    [|apply lifecycle_lookup_t|done|apply lifecycle_lookup_c].
  rewrite lifecycle_find_t, lifecycle_find_c. cbn [fst snd].
  set (c2 := set_friends (<[length (friends c) := _]> (friends c1)) c1).
  set (t2 := set_friends (<[length (friends t) := _]> (friends t1)) t1).
  set (s2 := with_users _ s1).
  assert (Hc2 : db_users s2 !! cid = Some c2) by apply lookup_insert_eq.
  assert (Ht2 : db_users s2 !! tid = Some t2).
  { unfold s2, with_users. simpl.
    rewrite lookup_insert_ne by apply lifecycle_distinct.
    apply lookup_insert_eq. }
  assert (Hfind_c2 : list_find (friendOf tid) (friends c2)
                     = Some (length (friends c), mkFriend tid accepted now1)).
  { unfold c2. simpl. by eapply list_find_update; [apply lifecycle_find_c|]. }
  assert (Hfind_t2 : list_find (friendOf cid) (friends t2)
                     = Some (length (friends t), mkFriend cid accepted now2)).
  { unfold t2. simpl. by eapply list_find_update; [apply lifecycle_find_t|]. }
  split_and!; [done|done| | |].
  - unfold friendStatus. by rewrite Hc2, Hfind_c2.
  - unfold friendStatus. by rewrite Ht2, Hfind_t2.
  - rewrite (request_reaches_check s2 cid tid c2 t2 uname); [|done..| |done|done].
    + rewrite Hfind_c2. by step_unfold.
    + intros id u Hu Hn. unfold s2, s1, with_users in Hu. simpl in Hu.
      rewrite !lookup_insert in Hu. repeat case_decide; simplify_eq; eauto.
Qed.

(** X27. The accept route does not ask who sent the request: after a
    request between two users who hold no entry for each other, an
    accept issued by the sender is answered with 200 as well, and both
    lists report accepted without the recipient having done
    anything. *)
Theorem sender_can_accept_own_request :
  let r1 := post_friends_request now1 now2 (Verified cid) (Some uname) s in
  let r2 := post_friends_accept (Verified cid) (Some tid) r1.2 in
  r2.1 = reply 200 "Friend request accepted"
  ∧ friendStatus r2.2 cid tid = Some accepted
  ∧ friendStatus r2.2 tid cid = Some accepted.
Proof.
  intros r1 r2. unfold r2, r1. rewrite lifecycle_request. cbn [fst snd].
  rewrite (post_friends_accept_eq s1 cid tid c1 t1);
    [|apply lifecycle_lookup_c|done|apply lifecycle_lookup_t].
  rewrite lifecycle_find_t, lifecycle_find_c. cbn [fst snd].
  split_and!; [done| |].
  - unfold friendStatus, with_users. cbn [db_users].
    rewrite lookup_insert_ne by (intros Heq; by apply lifecycle_distinct).
    rewrite lookup_insert_eq. simpl.
    by erewrite list_find_update; [|apply lifecycle_find_c|].
  - unfold friendStatus, with_users. cbn [db_users].
    rewrite lookup_insert_eq. simpl.
    by erewrite list_find_update; [|apply lifecycle_find_t|].
Qed.
End FriendLifecycle.

Lemma strangers_only_dave :
  ∀ id u, db_users strangers !! id = Some u → username u = "dave"%string →
          id = 4%N.
Proof. only_user. Defined.

Lemma request_then_remove_witness :
  friendStatus
    (post_friends_request 7 8 (Verified 5) (Some "dave"%string) strangers).2
    5 4
  = Some pending
  ∧ sameFriends strangers
      (delete_friends (Verified 5) 4
         (post_friends_request 7 8 (Verified 5) (Some "dave"%string)
                               strangers).2).2.
Proof.
  refine (let H := request_then_remove strangers 5 4 erin dave "dave" 7 8
                     eq_refl eq_refl eq_refl eq_refl strangers_only_dave
                     ltac:(discriminate) ltac:(discriminate)
                     eq_refl eq_refl in
          conj (proj1 (proj2 H)) (proj1 (proj2 (proj2 (proj2 (proj2 H)))))).
Defined.

Lemma request_then_accept_witness :
  friendStatus
    (post_friends_accept (Verified 4) (Some 5%N)
       (post_friends_request 7 8 (Verified 5) (Some "dave"%string) strangers).2).2
    5 4 = Some accepted.
Proof.
  exact (proj1 (proj2 (proj2 (request_then_accept strangers 5 4 erin dave "dave"
                                7 8 eq_refl eq_refl eq_refl eq_refl
                                strangers_only_dave
                                ltac:(discriminate) ltac:(discriminate)
                                eq_refl eq_refl 9 10 eq_refl)))).
Defined.

Lemma sender_can_accept_own_request_witness :
  friendStatus
    (post_friends_accept (Verified 5) (Some 4%N)
       (post_friends_request 7 8 (Verified 5) (Some "dave"%string) strangers).2).2
    4 5 = Some accepted.
Proof.
  exact (proj2 (proj2 (sender_can_accept_own_request strangers 5 4 erin dave
                         "dave" 7 8 eq_refl eq_refl eq_refl eq_refl
                         strangers_only_dave
                         ltac:(discriminate) ltac:(discriminate)
                         eq_refl eq_refl))).
Defined.
